(** * SecureFinance: the anomaly-detection engine and the client-side
      encryption protocol, embedded from the TypeScript sources.

    - [JS]: the fragment of JavaScript's Number, Math and Array semantics the
      sources rely on (IEEE 754 binary64 through Rocq's primitive floats).
    - [Database], [AnomalyModel], [TransactionModel], [UserModel]: the
      schema of backend/src/database.ts and the statements of
      backend/src/models that read or write the [anomalies] table.
    - [AnomalyDetector]: the class of that name in backend/src/utils.
    - [Controllers], [Dates]: the handlers of backend/src/controllers that
      change a row by id, and the date pattern and date range of
      backend/src/middleware/validation.ts and backend/src/models.
    - [Codec], [Encryption]: frontend/src/utils/encryption.ts, over the
      Web Crypto primitives taken as parameters.
    - [UseTransactions], [UseAuth]: the hooks of those names in
      frontend/src/hooks.

    Promises are modelled by their outcome: a value, or a rejection. Of the
    limits of an engine's resources one is modelled, the number of
    arguments a call takes, on which [ab2base64] depends
    ([Codec.argument_limit]); memory and storage quota are outside the
    model. *)

From Stdlib Require Import ZArith List Floats Uint63 Lia Bool.
From stdpp Require Import base option list gmap strings pretty.

(** ** JavaScript numbers *)

Module JS.

Local Open Scope float_scope.

(** A JS [number] is an IEEE 754 binary64 value. *)
Definition number := float.

(** [a === b] on numbers: IEEE equality ([+0 === -0], [NaN !== NaN]). *)
Definition strict_eq (a b : number) : bool := PrimFloat.eqb a b.

(** [a > b] and [a < b]; both are false when an operand is NaN. *)
Definition gt (a b : number) : bool := PrimFloat.ltb b a.
Definition lt (a b : number) : bool := PrimFloat.ltb a b.

(** [xs.length] as a number (array lengths are below 2^32). *)
Definition of_nat (n : nat) : number :=
  PrimFloat.of_uint63 (Uint63.of_Z (Z.of_nat n)).

(** A non-negative integer below 2^63 as a number. *)
Definition of_Z (z : Z) : number := PrimFloat.of_uint63 (Uint63.of_Z z).

Definition Math_abs (x : number) : number := PrimFloat.abs x.
Definition Math_sqrt (x : number) : number := PrimFloat.sqrt x.

(** [Math.pow(x, 2)]: the square, as one correctly rounded product.
    (ECMAScript leaves the precision of [Math.pow] to the engine; the
    product is exact whenever the square is representable.) *)
Definition Math_pow2 (x : number) : number := x * x.

(** [Math.max(a, b)]: NaN if either is NaN, and [+0] is larger than [-0]. *)
Definition Math_max (a b : number) : number :=
  if PrimFloat.is_nan a || PrimFloat.is_nan b then PrimFloat.nan
  else if PrimFloat.ltb a b then b
  else if PrimFloat.ltb b a then a
  else if PrimFloat.is_zero a && negb (PrimFloat.get_sign a) then a
  else b.

(** [Math.ceil(x)]: NaN, the infinities, the zeros and integers map to
    themselves; a negative value above [-1] maps to [-0]. A finite non-zero
    binary64 value is [(-1)^s * m * 2^e]. *)
Definition Math_ceil (x : number) : number :=
  match Prim2SF x with
  | S754_finite s m e =>
      if (0 <=? e)%Z then x
      else
        let d := (2 ^ (- e))%Z in
        let q := (Z.pos m / d)%Z in
        let r := (Z.pos m mod d)%Z in
        if s then (if (q =? 0)%Z then PrimFloat.neg_zero else - of_Z q)
        else of_Z (if (r =? 0)%Z then q else (q + 1)%Z)
  | _ => x
  end.

(** The integer a number denotes when it is a non-negative integer: the
    array index that the property key [ToString(v)] names. *)
Definition to_integer (v : number) : option Z :=
  match Prim2SF v with
  | S754_zero _ => Some 0%Z
  | S754_finite false m e =>
      if (0 <=? e)%Z then Some (Z.pos m * 2 ^ e)%Z
      else
        let d := (2 ^ (- e))%Z in
        if (Z.pos m mod d =? 0)%Z then Some (Z.pos m / d)%Z else None
  | _ => None
  end.

(** [xs[v]] for an array of numbers: [None] is [undefined] (no such own
    property: [v] is no index, or it is past the end). *)
Definition array_get (xs : list number) (v : number) : option number :=
  match to_integer v with
  | Some i => if (i <? Z.of_nat (length xs))%Z then xs !! Z.to_nat i else None
  | None => None
  end.

(** [ToNumber] of a value that is a number or [undefined]. *)
Definition to_number (v : option number) : number :=
  match v with Some x => x | None => PrimFloat.nan end.

(** Insertion in [xs.sort((a, b) => a - b)]: [x] goes before the first [y]
    whose comparison [x - y] is negative. *)
Fixpoint sort_insert (x : number) (ys : list number) : list number :=
  match ys with
  | [] => [x]
  | y :: ys' => if lt (x - y) 0 then x :: ys else y :: sort_insert x ys'
  end.

(** [[...xs].sort((a, b) => a - b)]: the stable ascending sort of a copy.
    (For a consistent comparator, that is for arrays without NaN and without
    both infinities, every conforming engine returns this list.) *)
Definition sort_numeric (xs : list number) : list number :=
  fold_left (fun acc x => sort_insert x acc) xs [].

End JS.


(** ** The database (backend/src/database.ts) and the Anomaly model *)

Module Database.

Inductive Severity := low | medium | high.

#[global] Instance Severity_eq_dec : EqDecision Severity.
Proof. solve_decision. Defined.

(** The order low < medium < high. *)
Definition severity_rank (s : Severity) : nat :=
  match s with low => 0 | medium => 1 | high => 2 end.

(** A row of the [anomalies] table (interface [Anomaly]). *)
Record Anomaly := mkAnomaly {
  id : Z;
  user_id : Z;
  transaction_id : option Z;
  anomaly_type : string;
  severity : Severity;
  description : option string;
  detected_at : string;
  acknowledged : bool
}.

(** The state of the SQLite database, as far as the [anomalies] table and
    its foreign keys are concerned.
    - [users]: the ids in table [users], with its AUTOINCREMENT counter;
    - [transactions]: table [transactions], each id with its [user_id] (the
      other columns are opaque to every statement on [anomalies]), with its
      AUTOINCREMENT counter;
    - [anomalies]: table [anomalies] by primary key;
    - [anomalies_seq]: the AUTOINCREMENT counter of [anomalies] (the largest
      rowid ever used, kept in [sqlite_sequence]);
    - [foreign_keys]: the [foreign_keys] pragma of the connection (on
      unless changed: better-sqlite3 is built with it on by default);
    - [clock]: [CURRENT_TIMESTAMP] as read when the row with the given rowid
      is inserted. *)
Record db := mkDb {
  users : gset Z;
  users_seq : Z;
  transactions : gmap Z Z;
  transactions_seq : Z;
  anomalies : gmap Z Anomaly;
  anomalies_seq : Z;
  foreign_keys : bool;
  clock : Z -> string
}.

Definition set_anomalies (d : db) (rows : gmap Z Anomaly) (seq : Z) : db :=
  mkDb (users d) (users_seq d) (transactions d) (transactions_seq d) rows seq
       (foreign_keys d) (clock d).

Definition set_transactions (d : db) (rows : gmap Z Z) (seq : Z) : db :=
  mkDb (users d) (users_seq d) rows seq (anomalies d) (anomalies_seq d)
       (foreign_keys d) (clock d).

Definition set_users (d : db) (rows : gset Z) (seq : Z) : db :=
  mkDb rows seq (transactions d) (transactions_seq d) (anomalies d)
       (anomalies_seq d) (foreign_keys d) (clock d).

(** A statement either returns or throws a [SqliteError]; a statement that
    throws changes nothing, but what earlier statements wrote stays. *)
Inductive result (A : Type) :=
| Ok (a : A)
| SqliteError (code : string).
Arguments Ok {A} a.
Arguments SqliteError {A} code.

Definition M (A : Type) : Type := db -> result A * db.

Definition ret {A} (a : A) : M A := fun d => (Ok a, d).

Definition bind {A B} (m : M A) (k : A -> M B) : M B :=
  fun d => match m d with
           | (Ok a, d') => k a d'
           | (SqliteError e, d') => (SqliteError e, d')
           end.

(** [xs.forEach(f)]: the callbacks run in order; one that throws ends the
    loop. *)
Fixpoint forEach {A} (f : A -> M unit) (xs : list A) : M unit :=
  match xs with
  | [] => ret tt
  | x :: xs' => bind (f x) (fun _ => forEach f xs')
  end.

End Database.

Module AnomalyModel.
Import Database.

Record AnomalyCreateInput := mkInput {
  in_user_id : Z;
  in_transaction_id : option Z;
  in_anomaly_type : string;
  in_severity : Severity;
  in_description : option string
}.

(** [data.transaction_id || null]: [undefined] and [0] both give [null]. *)
Definition transaction_id_or_null (t : option Z) : option Z :=
  match t with
  | Some i => if (i =? 0)%Z then None else Some i
  | None => None
  end.

(** [data.description || null]: [undefined] and the empty string give
    [null]. *)
Definition description_or_null (s : option string) : option string :=
  match s with
  | Some x => if String.eqb x EmptyString then None else Some x
  | None => None
  end.

(** The foreign keys of a row to insert: its user exists, and so does its
    transaction unless the reference is [NULL]. Checked only when the pragma
    is on. *)
Definition foreign_keys_hold (d : db) (user : Z) (tx : option Z) : bool :=
  negb (foreign_keys d)
  || (bool_decide (user ∈ users d)
      && match tx with
         | Some t => bool_decide (is_Some (transactions d !! t))
         | None => true
         end).

Definition findById (i : Z) : M (option Anomaly) :=
  fun d => (Ok (anomalies d !! i), d).

(** [create]: the INSERT gives the row the next AUTOINCREMENT id, the
    current timestamp and [acknowledged = 0]; the row is read back. *)
Definition create (data : AnomalyCreateInput) : M Anomaly :=
  fun d =>
    let tx := transaction_id_or_null (in_transaction_id data) in
    if foreign_keys_hold d (in_user_id data) tx then
      let rowid := (anomalies_seq d + 1)%Z in
      let row := mkAnomaly rowid (in_user_id data) tx (in_anomaly_type data)
                   (in_severity data)
                   (description_or_null (in_description data))
                   (clock d rowid) false in
      (Ok row, set_anomalies d (<[rowid := row]> (anomalies d)) rowid)
    else (SqliteError "SQLITE_CONSTRAINT_FOREIGNKEY", d).

Definition set_acknowledged (a : Anomaly) : Anomaly :=
  mkAnomaly (id a) (user_id a) (transaction_id a) (anomaly_type a)
            (severity a) (description a) (detected_at a) true.

(** [acknowledge]: [UPDATE anomalies SET acknowledged = 1 WHERE id = ?];
    [changes] counts the rows the WHERE clause selects, whether or not the
    stored value differs. *)
Definition acknowledge (i : Z) : M bool :=
  fun d =>
    match anomalies d !! i with
    | Some a =>
        (Ok true,
         set_anomalies d (<[i := set_acknowledged a]> (anomalies d))
                       (anomalies_seq d))
    | None => (Ok false, d)
    end.

(** [delete]: [DELETE FROM anomalies WHERE id = ?]. *)
Definition delete (i : Z) : M bool :=
  fun d =>
    match anomalies d !! i with
    | Some _ =>
        (Ok true,
         set_anomalies d (base.delete i (anomalies d)) (anomalies_seq d))
    | None => (Ok false, d)
    end.

End AnomalyModel.

(** ** The statements on [transactions] and [users] that reach [anomalies]

    backend/src/models/Transaction.ts and User.ts, reduced to what the
    [anomalies] table can observe: the keys its foreign keys point to, and
    the [ON DELETE CASCADE] actions of its two foreign keys. *)

Module TransactionModel.
Import Database.

(** The rows of [anomalies] that survive when the transactions selected by
    [gone] are deleted: with foreign keys enforced the rows that reference
    one of them are deleted too ([ON DELETE CASCADE]); otherwise all stay,
    and keep their reference. *)
Definition cascade (d : db) (gone : Z -> bool) : gmap Z Anomaly :=
  if foreign_keys d then
    filter (fun kv : Z * Anomaly =>
              match transaction_id kv.2 with
              | Some t => gone t
              | None => false
              end = false)
           (anomalies d)
  else anomalies d.

(** [create]: the INSERT checks the [user_id] foreign key and takes the
    next AUTOINCREMENT id. *)
Definition create (user : Z) : M Z :=
  fun d =>
    if negb (foreign_keys d) || bool_decide (user ∈ users d) then
      let rowid := (transactions_seq d + 1)%Z in
      (Ok rowid, set_transactions d (<[rowid := user]> (transactions d)) rowid)
    else (SqliteError "SQLITE_CONSTRAINT_FOREIGNKEY", d).

(** [findById]: [SELECT * FROM transactions WHERE id = ?], of which the
    [user_id] column is kept. *)
Definition findById (i : Z) : M (option Z) :=
  fun d => (Ok (transactions d !! i), d).

(** [delete]: [DELETE FROM transactions WHERE id = ?]. *)
Definition delete (i : Z) : M bool :=
  fun d =>
    match transactions d !! i with
    | Some _ =>
        (Ok true,
         set_anomalies
           (set_transactions d (base.delete i (transactions d))
                             (transactions_seq d))
           (cascade d (fun t => (t =? i)%Z)) (anomalies_seq d))
    | None => (Ok false, d)
    end.

(** [deleteByUserId]: [DELETE FROM transactions WHERE user_id = ?]; the
    number of deleted transactions is returned. *)
Definition deleteByUserId (user : Z) : M nat :=
  fun d =>
    let mine := filter (fun kv : Z * Z => kv.2 = user) (transactions d) in
    (Ok (size mine),
     set_anomalies
       (set_transactions d
          (filter (fun kv : Z * Z => kv.2 <> user) (transactions d))
          (transactions_seq d))
       (cascade d (fun t => bool_decide (is_Some (mine !! t))))
       (anomalies_seq d)).

End TransactionModel.

Module UserModel.
Import Database.

(** [create]: [INSERT INTO users]; a duplicate email makes the statement
    throw ([unique] tells whether the email is new). *)
Definition create (unique : bool) : M Z :=
  fun d =>
    if unique then
      let rowid := (users_seq d + 1)%Z in
      (Ok rowid, set_users d ({[rowid]} ∪ users d) rowid)
    else (SqliteError "SQLITE_CONSTRAINT_UNIQUE", d).

(** [DELETE FROM users WHERE id = ?]. No model issues this statement; the
    schema fixes what it does: with foreign keys enforced the user's
    transactions go, and with them or with the user every anomaly that
    references one of them. *)
Definition delete_cascade (user : Z) : M bool :=
  fun d =>
    if bool_decide (user ∈ users d) then
      (Ok true,
       if foreign_keys d then
         let mine := filter (fun kv : Z * Z => kv.2 = user) (transactions d) in
         mkDb (users d ∖ {[user]}) (users_seq d)
              (filter (fun kv : Z * Z => kv.2 <> user) (transactions d))
              (transactions_seq d)
              (filter (fun kv : Z * Anomaly =>
                         (user_id kv.2 =? user)%Z
                         || match transaction_id kv.2 with
                            | Some t => bool_decide (is_Some (mine !! t))
                            | None => false
                            end = false)
                      (anomalies d))
              (anomalies_seq d) (foreign_keys d) (clock d)
       else set_users d (users d ∖ {[user]}) (users_seq d))
    else (Ok false, d).

End UserModel.

(** ** Statements as data: every way the models change the database *)

Module Statements.
Import Database.

Inductive statement :=
| AnomalyCreate (data : AnomalyModel.AnomalyCreateInput)
| AnomalyAcknowledge (i : Z)
| AnomalyDelete (i : Z)
| TransactionCreate (user : Z)
| TransactionDelete (i : Z)
| TransactionDeleteByUserId (user : Z)
| UserCreate (unique : bool)
| UserDelete (user : Z).

(** The database after a statement (its return value dropped). *)
Definition exec (s : statement) (d : db) : db :=
  match s with
  | AnomalyCreate data => (AnomalyModel.create data d).2
  | AnomalyAcknowledge i => (AnomalyModel.acknowledge i d).2
  | AnomalyDelete i => (AnomalyModel.delete i d).2
  | TransactionCreate user => (TransactionModel.create user d).2
  | TransactionDelete i => (TransactionModel.delete i d).2
  | TransactionDeleteByUserId user => (TransactionModel.deleteByUserId user d).2
  | UserCreate unique => (UserModel.create unique d).2
  | UserDelete user => (UserModel.delete_cascade user d).2
  end.

Definition exec_all (ss : list statement) (d : db) : db :=
  fold_left (fun d s => exec s d) ss d.

(** AUTOINCREMENT's invariant: no row of [anomalies] has an id above the
    counter. *)
Definition wf (d : db) : Prop :=
  forall i a, anomalies d !! i = Some a -> (i <= anomalies_seq d)%Z.

End Statements.

(** ** The handlers that change a row by id
    (backend/src/controllers/anomalyController.ts and
    transactionController.ts)

    A handler runs behind [authMiddleware], which sets [req.user]; it
    either sends a JSON response or throws an [AppError], which the error
    handler turns into a response with that status. *)

Module Controllers.
Import Database.

Inductive response :=
| Json (status : Z) (message : string)
| AppError (message : string) (statusCode : Z).

(** A model call whose bound parameter is the number [parseInt] returned:
    [None] is [NaN], which is bound as [NULL], and [id = NULL] selects no
    row. *)
Definition bound {A} (v : option Z) (call : Z -> M A) (no_row : A) : M A :=
  match v with
  | Some i => call i
  | None => ret no_row
  end.

Section Handlers.

(** [parseInt(req.params.id)]: an integer, or [None] for [NaN]. *)
Variable parseInt : string -> option Z.

(** [acknowledgeAnomaly], for the user of the token and the [:id] of the
    route. *)
Definition acknowledgeAnomaly (userId : Z) (params_id : string)
    : db -> response * db :=
  fun d =>
    let anomalyId := parseInt params_id in
    match bound anomalyId AnomalyModel.findById None d with
    | (SqliteError _, d1) => (AppError "Failed to acknowledge anomaly" 500, d1)
    | (Ok None, d1) => (AppError "Anomaly not found" 404, d1)
    | (Ok (Some anomaly), d1) =>
        if negb (user_id anomaly =? userId)%Z then
          (AppError "Unauthorized access to anomaly" 403, d1)
        else
          match bound anomalyId AnomalyModel.acknowledge false d1 with
          | (SqliteError _, d2) =>
              (AppError "Failed to acknowledge anomaly" 500, d2)
          | (Ok false, d2) => (AppError "Failed to acknowledge anomaly" 500, d2)
          | (Ok true, d2) => (Json 200 "Anomaly acknowledged successfully", d2)
          end
    end.

(** [deleteTransaction], for the user of the token and the [:id] of the
    route. *)
Definition deleteTransaction (userId : Z) (params_id : string)
    : db -> response * db :=
  fun d =>
    let transactionId := parseInt params_id in
    match bound transactionId TransactionModel.findById None d with
    | (SqliteError _, d1) => (AppError "Failed to delete transaction" 500, d1)
    | (Ok None, d1) => (AppError "Transaction not found" 404, d1)
    | (Ok (Some transaction_user_id), d1) =>
        if negb (transaction_user_id =? userId)%Z then
          (AppError "Unauthorized access to transaction" 403, d1)
        else
          match bound transactionId TransactionModel.delete false d1 with
          | (SqliteError _, d2) =>
              (AppError "Failed to delete transaction" 500, d2)
          | (Ok false, d2) => (AppError "Failed to delete transaction" 500, d2)
          | (Ok true, d2) => (Json 200 "Transaction deleted successfully", d2)
          end
    end.

End Handlers.

End Controllers.

(** ** Dates of transactions (backend/src/middleware/validation.ts and
    backend/src/models/Transaction.ts)

    The [date] column is TEXT. A text is a sequence of bytes here; a
    JavaScript string that matches the pattern is ASCII, so its bytes are
    its characters. *)

Module Dates.

(** [\d]: an ASCII digit. *)
Definition digit (c : Ascii.ascii) : bool :=
  (48 <=? Ascii.N_of_ascii c)%N && (Ascii.N_of_ascii c <=? 57)%N.

Definition hyphen (c : Ascii.ascii) : bool :=
  (Ascii.N_of_ascii c =? 45)%N.

(** The pattern of [transactionSchema.date], [/^\d{4}-\d{2}-\d{2}$/]. *)
Definition date_pattern (s : string) : bool :=
  match s with
  | String y1 (String y2 (String y3 (String y4 (String h1 (String m1
      (String m2 (String h2 (String d1 (String d2 EmptyString))))))))) =>
      digit y1 && digit y2 && digit y3 && digit y4 && hyphen h1
      && digit m1 && digit m2 && hyphen h2 && digit d1 && digit d2
  | _ => false
  end.

(** [a <= b] on TEXT values under the BINARY collation: byte by byte, a
    proper prefix first. *)
Definition text_le (a b : string) : bool := String.leb a b.

(** The WHERE clause of [findByUserIdAndDateRange],
    [user_id = ? AND date BETWEEN ? AND ?], on the columns [user_id] and
    [date] of a row. *)
Definition date_range_selects (userId : Z) (startDate endDate : string)
    (row_user_id : Z) (row_date : string) : bool :=
  (row_user_id =? userId)%Z
  && (text_le startDate row_date && text_le row_date endDate).

(** *** Vocabulary for the properties of dates *)

Definition digit_value (c : Ascii.ascii) : Z :=
  Z.of_N (Ascii.N_of_ascii c) - 48.

(** Year, month and day as a text that matches the pattern writes them. *)
Definition year_month_day (s : string) : Z * Z * Z :=
  match s with
  | String y1 (String y2 (String y3 (String y4 (String _ (String m1
      (String m2 (String _ (String d1 (String d2 _))))))))) =>
      (1000 * digit_value y1 + 100 * digit_value y2 + 10 * digit_value y3
       + digit_value y4,
       10 * digit_value m1 + digit_value m2,
       10 * digit_value d1 + digit_value d2)%Z
  | _ => (0, 0, 0)%Z
  end.

(** The calendar order on (year, month, day). *)
Definition not_after (a b : Z * Z * Z) : Prop :=
  (a.1.1 < b.1.1 \/ (a.1.1 = b.1.1 /\
     (a.1.2 < b.1.2 \/ (a.1.2 = b.1.2 /\ a.2 <= b.2))))%Z.

End Dates.

(** ** The anomaly detector (class [AnomalyDetector], backend/src/utils) *)

Module AnomalyDetector.
Import JS Database.

Local Open Scope float_scope.

(** A decrypted transaction as the detector reads it. [analyzeTransaction]
    takes structural supertypes of this record: it reads [amount] and
    [category] only, [batchAnalyze] reads [id] and [amount]. *)
Record DecryptedTransaction := mkTx {
  id : Z;
  amount : number;
  category : option string;
  date : string
}.

Record AnomalyResult := mkResult {
  isAnomaly : bool;
  type : string;
  severity : Severity;
  description : string
}.

Section Detector.

(** [x.toFixed(digits)], the decimal rendering used in descriptions. *)
Variable toFixed : number -> nat -> string.

Definition mean (values : list number) : number :=
  if (length values =? 0)%nat then 0
  else fold_left (fun sum val => sum + val) values 0 / of_nat (length values).

Definition standardDeviation (values : list number) : number :=
  if (length values =? 0)%nat then 0
  else
    let avg := mean values in
    let squareDiffs := map (fun value => Math_pow2 (value - avg)) values in
    let avgSquareDiff := mean squareDiffs in
    Math_sqrt avgSquareDiff.

Definition zScore (value mean stdDev : number) : number :=
  if strict_eq stdDev 0 then 0 else (value - mean) / stdDev.

(** The severity band of a z-score or ratio [v]: high above 4, medium above
    3, low otherwise. *)
Definition band (v : number) : Severity :=
  if gt v 4 then high else if gt v 3 then medium else low.

(** The default of [detectAmountAnomaly]'s [threshold] parameter. *)
Definition default_threshold : number := 2.5.

Definition detectAmountAnomaly (amount : number)
    (historicalAmounts : list number) (threshold : number) : AnomalyResult :=
  if (length historicalAmounts <? 5)%nat then
    mkResult false "insufficient_data" low
             "Not enough historical data for analysis"
  else
    let mean := mean historicalAmounts in
    let stdDev := standardDeviation historicalAmounts in
    let zScore := zScore amount mean stdDev in
    if gt (Math_abs zScore) threshold then
      mkResult true "unusual_amount" (band (Math_abs zScore))
        ("Transaction amount ($" +:+ toFixed amount 2 +:+ ") is "
         +:+ toFixed (Math_abs zScore) 1
         +:+ " standard deviations from your average ($"
         +:+ toFixed mean 2 +:+ ")")
    else
      mkResult false "normal" low "Transaction amount is within normal range".

Definition detectLargeTransaction (amount percentile90 : number)
    : AnomalyResult :=
  if gt amount (percentile90 * 2) then
    mkResult true "large_transaction"
      (if gt amount (percentile90 * 5) then high else medium)
      ("Large transaction detected: $" +:+ toFixed amount 2
       +:+ " (significantly above your typical spending)")
  else
    mkResult false "normal" low "Transaction size is normal".

(** [percentile]: [None] is [undefined], what indexing past the end of the
    array gives. *)
Definition percentile (sortedValues : list number) (percentile : number)
    : option number :=
  if (length sortedValues =? 0)%nat then Some 0
  else
    let index :=
      Math_ceil ((percentile / 100) * of_nat (length sortedValues)) - 1 in
    array_get sortedValues (Math_max 0 index).

(** [if (newTransaction.category)]: neither [null] nor the empty string. *)
Definition truthy (c : option string) : bool :=
  match c with
  | Some s => negb (String.eqb s EmptyString)
  | None => false
  end.

(** [t.category === newTransaction.category] on [string | null]. *)
Definition category_eq (a b : option string) : bool :=
  match a, b with
  | Some x, Some y => String.eqb x y
  | None, None => true
  | _, _ => false
  end.

Definition category_text (c : option string) : string :=
  match c with Some s => s | None => "null" end.

Definition analyzeTransaction (newTransaction : DecryptedTransaction)
    (historicalTransactions : list DecryptedTransaction)
    : list AnomalyResult :=
  let amounts := map amount historicalTransactions in
  let sortedAmounts := sort_numeric amounts in
  let amountAnomaly :=
    detectAmountAnomaly (amount newTransaction) amounts default_threshold in
  let anomalies1 := if isAnomaly amountAnomaly then [amountAnomaly] else [] in
  let anomalies2 :=
    if (10 <=? length amounts)%nat then
      let p90 := percentile sortedAmounts 90 in
      let largeTransAnomaly :=
        detectLargeTransaction (amount newTransaction) (to_number p90) in
      if isAnomaly largeTransAnomaly then [largeTransAnomaly] else []
    else [] in
  let anomalies3 :=
    if truthy (category newTransaction) then
      let categoryTransactions :=
        List.filter
          (fun t => category_eq (category t) (category newTransaction))
          historicalTransactions in
      if (5 <=? length categoryTransactions)%nat then
        let categoryAmounts := map amount categoryTransactions in
        let categoryAnomaly :=
          detectAmountAnomaly (amount newTransaction) categoryAmounts 2.0 in
        if isAnomaly categoryAnomaly then
          [mkResult (isAnomaly categoryAnomaly) "unusual_category_amount"
             (severity categoryAnomaly)
             ("Unusual amount for " +:+ category_text (category newTransaction)
              +:+ ": " +:+ description categoryAnomaly)]
        else []
      else []
    else [] in
  anomalies1 ++ anomalies2 ++ anomalies3.

(** The row [batchAnalyze] creates for a flagged transaction. *)
Definition anomalyData (userId : Z) (transaction : DecryptedTransaction)
    (zScore : number) : AnomalyModel.AnomalyCreateInput :=
  AnomalyModel.mkInput userId (Some (id transaction)) "unusual_amount"
    (band (Math_abs zScore))
    (Some ("Amount ($" +:+ toFixed (amount transaction) 2 +:+ ") is "
           +:+ toFixed (Math_abs zScore) 1 +:+ "Ïƒ from average")).


(** The callback of [transactions.forEach] in [batchAnalyze]. *)
Definition scan_one (userId : Z) (mean stdDev : number)
    (transaction : DecryptedTransaction) : M unit :=
  let zScore := zScore (amount transaction) mean stdDev in
  if gt (Math_abs zScore) 2.5 then
    bind (AnomalyModel.create (anomalyData userId transaction zScore))
         (fun _ => ret tt)
  else ret tt.

Definition batchAnalyze (userId : Z) (transactions : list DecryptedTransaction)
    : M unit :=
  if (length transactions <? 10)%nat then ret tt
  else
    let amounts := map amount transactions in
    let mean := mean amounts in
    let stdDev := standardDeviation amounts in
    forEach (scan_one userId mean stdDev) transactions.

(** *** The frequency and the spending-spike rules *)

(** [String(x)] of a number, as a template literal renders it. *)
Variable Number_toString : number -> string.

(** The default of [detectFrequencyAnomaly]'s [threshold] parameter. *)
Definition default_frequency_threshold : number := 2.0.

Definition detectFrequencyAnomaly (category : string)
    (recentCount historicalAverage threshold : number) : AnomalyResult :=
  if strict_eq historicalAverage 0 then
    mkResult false "new_category" low "New category - establishing baseline"
  else
    let ratio := recentCount / historicalAverage in
    if gt ratio threshold then
      mkResult true "unusual_frequency" (band ratio)
        ("Unusual number of " +:+ category +:+ " transactions ("
         +:+ Number_toString recentCount +:+ " vs average "
         +:+ toFixed historicalAverage 1 +:+ ")")
    else
      mkResult false "normal" low "Transaction frequency is normal".

(** The default of [detectSpendingSpike]'s [threshold] parameter. *)
Definition default_spike_threshold : number := 1.5.

Definition detectSpendingSpike (periodTotal : number)
    (historicalPeriodAverages : list number) (threshold : number)
    : AnomalyResult :=
  if (length historicalPeriodAverages <? 3)%nat then
    mkResult false "insufficient_data" low "Not enough historical data"
  else
    let avgPeriodSpending := mean historicalPeriodAverages in
    if gt periodTotal (avgPeriodSpending * threshold) then
      mkResult true "spending_spike"
        (if gt periodTotal (avgPeriodSpending * 2.5) then high
         else if gt periodTotal (avgPeriodSpending * 2) then medium
         else low)
        ("High spending period: $" +:+ toFixed periodTotal 2
         +:+ " (avg: $" +:+ toFixed avgPeriodSpending 2 +:+ ")")
    else
      mkResult false "normal" low "Spending is within normal range".

(** *** Vocabulary for the properties of the detector *)







Definition boundary_amounts : list number :=
  [10; 10; 10; 10; 10; 10; 10; 10; 10; 100].

(** The elements of [xs] that [mask] keeps. *)
Fixpoint select {A} (mask : list bool) (xs : list A) : list A :=
  match mask, xs with
  | b :: mask', x :: xs' =>
      if b then x :: select mask' xs' else select mask' xs'
  | _, _ => []
  end.

Fixpoint all_masks (n : nat) : list (list bool) :=
  match n with
  | O => [[]]
  | S n' => flat_map (fun m => [true :: m; false :: m]) (all_masks n')
  end.

(** What the category rule computes on the sub-list of the boundary
    amounts that a mask keeps. *)
Definition category_rule (candidate : number) (mask : list bool) : bool :=
  let categoryAmounts := select mask boundary_amounts in
  (5 <=? length categoryAmounts)%nat
  && isAnomaly (detectAmountAnomaly candidate categoryAmounts 2.0).

End Detector.

End AnomalyDetector.


(** ** Text and Base64 (frontend/src/utils/encryption.ts, codec part)

    A JavaScript string is a sequence of UTF-16 code units, a buffer a
    sequence of bytes; both are lists of integers here. [TextEncoder],
    [TextDecoder], [btoa] and [atob] follow the Encoding and HTML
    standards. *)

Module Codec.

Local Open Scope Z_scope.

Definition jsstring := list Z.
Definition bytes := list Z.

Definition is_byte (b : Z) : Prop := 0 <= b < 256.

(** A [Uint8Array]: the window of [byteLength] bytes at [byteOffset] of an
    [ArrayBuffer]. *)
Record Uint8Array := mkUint8Array {
  buffer : bytes;
  byteOffset : nat;
  byteLength : nat
}.

(** The elements of the array, which is what a call that takes the array
    as a buffer source reads. *)
Definition elements (a : Uint8Array) : bytes :=
  firstn (byteLength a) (skipn (byteOffset a) (buffer a)).

(** [new Uint8Array(buffer)], and an array made with a length and then
    filled: the array covers its whole buffer. *)
Definition new_Uint8Array (buffer : bytes) : Uint8Array :=
  mkUint8Array buffer 0 (length buffer).
Definition is_code_unit (u : Z) : Prop := 0 <= u < 65536.

(** A string literal of the source, as code units. *)
Definition lit (s : string) : jsstring :=
  map (fun a => Z.of_N (Ascii.N_of_ascii a)) (String.list_ascii_of_string s).

Definition high_surrogate (u : Z) : bool := (0xD800 <=? u) && (u <=? 0xDBFF).
Definition low_surrogate (u : Z) : bool := (0xDC00 <=? u) && (u <=? 0xDFFF).

(** The scalar values of a string (conversion to a USVString): a
    surrogate pair is one supplementary code point, a surrogate that is
    not part of a pair becomes U+FFFD. *)
Fixpoint scalar_values (s : jsstring) : list Z :=
  match s with
  | [] => []
  | u :: rest =>
      if high_surrogate u then
        match rest with
        | l :: rest' =>
            if low_surrogate l then
              (0x10000 + (u - 0xD800) * 0x400 + (l - 0xDC00))
                :: scalar_values rest'
            else 0xFFFD :: scalar_values rest
        | [] => [0xFFFD]
        end
      else if low_surrogate u then 0xFFFD :: scalar_values rest
      else u :: scalar_values rest
  end.

(** The UTF-8 bytes of a scalar value. *)
Definition utf8_bytes (c : Z) : bytes :=
  if c <? 0x80 then [c]
  else if c <? 0x800 then [0xC0 + c / 64; 0x80 + c mod 64]
  else if c <? 0x10000 then
    [0xE0 + c / 4096; 0x80 + c / 64 mod 64; 0x80 + c mod 64]
  else
    [0xF0 + c / 262144; 0x80 + c / 4096 mod 64; 0x80 + c / 64 mod 64;
     0x80 + c mod 64].

(** [new TextEncoder().encode(str)]. *)
Definition TextEncoder_encode (str : jsstring) : bytes :=
  flat_map utf8_bytes (scalar_values str).

(** The state of the UTF-8 decoder: the code point being assembled, the
    continuation bytes still needed, and the bounds of the next byte. *)
Record decoder := mkDecoder {
  code_point : Z;
  bytes_needed : Z;
  lower_boundary : Z;
  upper_boundary : Z
}.

Definition decoder_init : decoder := mkDecoder 0 0 0x80 0xBF.

(** What a byte does when no sequence is open. *)
Inductive lead :=
| Emit (c : Z)
| Open (st : decoder)
| Invalid.

Definition lead_byte (b : Z) : lead :=
  if (0 <=? b) && (b <=? 0x7F) then Emit b
  else if (0xC2 <=? b) && (b <=? 0xDF) then
    Open (mkDecoder (b - 0xC0) 1 0x80 0xBF)
  else if (0xE0 <=? b) && (b <=? 0xEF) then
    Open (mkDecoder (b - 0xE0) 2
            (if b =? 0xE0 then 0xA0 else 0x80)
            (if b =? 0xED then 0x9F else 0xBF))
  else if (0xF0 <=? b) && (b <=? 0xF4) then
    Open (mkDecoder (b - 0xF0) 3
            (if b =? 0xF0 then 0x90 else 0x80)
            (if b =? 0xF4 then 0x8F else 0xBF))
  else Invalid.

(** The UTF-8 decoder in replacement mode: every error yields U+FFFD; a
    byte that cannot continue the open sequence ends it with an error and
    is read again as a lead byte. *)
Fixpoint utf8_decode_from (st : decoder) (input : bytes) : list Z :=
  match input with
  | [] => if bytes_needed st =? 0 then [] else [0xFFFD]
  | b :: rest =>
      let restart :=
        match lead_byte b with
        | Emit c => c :: utf8_decode_from decoder_init rest
        | Open st' => utf8_decode_from st' rest
        | Invalid => 0xFFFD :: utf8_decode_from decoder_init rest
        end in
      if bytes_needed st =? 0 then restart
      else if (lower_boundary st <=? b) && (b <=? upper_boundary st) then
        let c := code_point st * 64 + (b - 0x80) in
        if bytes_needed st =? 1 then c :: utf8_decode_from decoder_init rest
        else utf8_decode_from
               (mkDecoder c (bytes_needed st - 1) 0x80 0xBF) rest
      else 0xFFFD :: restart
  end.

Definition utf8_decode (input : bytes) : list Z :=
  utf8_decode_from decoder_init input.

(** A leading U+FEFF is dropped ([ignoreBOM] is false by default). *)
Definition strip_bom (cs : list Z) : list Z :=
  match cs with
  | c :: rest => if c =? 0xFEFF then rest else cs
  | [] => []
  end.

(** The code units of a scalar value. *)
Definition code_units (c : Z) : jsstring :=
  if c <? 0x10000 then [c]
  else [0xD800 + (c - 0x10000) / 0x400; 0xDC00 + (c - 0x10000) mod 0x400].

(** [new TextDecoder().decode(buffer)]. *)
Definition TextDecoder_decode (buffer : bytes) : jsstring :=
  flat_map code_units (strip_bom (utf8_decode buffer)).

Definition str2ab (str : jsstring) : bytes := TextEncoder_encode str.
Definition ab2str (buffer : bytes) : jsstring := TextDecoder_decode buffer.

(** [str.isWellFormed()]: code units, with every surrogate in a pair. *)
Fixpoint well_formed (s : jsstring) : bool :=
  match s with
  | [] => true
  | u :: rest =>
      (0 <=? u) && (u <? 65536)
      && if high_surrogate u then
           match rest with
           | l :: rest' => low_surrogate l && well_formed rest'
           | [] => false
           end
         else negb (low_surrogate u) && well_formed rest
  end.

(** *** Base64 *)

Definition base64_char (v : Z) : Z :=
  if v <? 26 then 65 + v
  else if v <? 52 then 97 + (v - 26)
  else if v <? 62 then 48 + (v - 52)
  else if v =? 62 then 43
  else 47.

Definition base64_value (c : Z) : option Z :=
  if (65 <=? c) && (c <=? 90) then Some (c - 65)
  else if (97 <=? c) && (c <=? 122) then Some (c - 97 + 26)
  else if (48 <=? c) && (c <=? 57) then Some (c - 48 + 52)
  else if c =? 43 then Some 62
  else if c =? 47 then Some 63
  else None.

(** Base64 of a byte sequence, three bytes to four characters, padded
    with [=] (61). *)
Fixpoint base64_encode (data : bytes) : jsstring :=
  match data with
  | a :: b :: c :: rest =>
      base64_char (a / 4)
        :: base64_char (a mod 4 * 16 + b / 16)
        :: base64_char (b mod 16 * 4 + c / 64)
        :: base64_char (c mod 64)
        :: base64_encode rest
  | [a; b] =>
      [base64_char (a / 4); base64_char (a mod 4 * 16 + b / 16);
       base64_char (b mod 16 * 4); 61]
  | [a] => [base64_char (a / 4); base64_char (a mod 4 * 16); 61; 61]
  | [] => []
  end.

(** [btoa(data)]: throws ([None]) on a character above U+00FF. *)
Definition btoa (data : jsstring) : option jsstring :=
  if forallb (fun c => (0 <=? c) && (c <=? 255)) data
  then Some (base64_encode data)
  else None.

Definition ascii_whitespace (c : Z) : bool :=
  (c =? 9) || (c =? 10) || (c =? 12) || (c =? 13) || (c =? 32).

(** Removes a final [=], if there is one. *)
Definition strip_equals (data : jsstring) : jsstring :=
  if List.last data 0 =? 61 then List.removelast data else data.

Fixpoint base64_values (data : jsstring) : option (list Z) :=
  match data with
  | [] => Some []
  | c :: rest =>
      match base64_value c, base64_values rest with
      | Some v, Some vs => Some (v :: vs)
      | _, _ => None
      end
  end.

(** The bytes of a sequence of 6-bit values; the bits left over after the
    last whole byte are dropped. *)
Fixpoint base64_bytes (vs : list Z) : bytes :=
  match vs with
  | a :: b :: c :: d :: rest =>
      (a * 4 + b / 16) :: (b mod 16 * 16 + c / 4) :: (c mod 4 * 64 + d)
        :: base64_bytes rest
  | [a; b; c] => [a * 4 + b / 16; b mod 16 * 16 + c / 4]
  | [a; b] => [a * 4 + b / 16]
  | _ => []
  end.

(** [atob(data)], the forgiving Base64 decoder: ASCII whitespace is
    removed; when the length is then a multiple of four, one or two final
    [=] are removed; a remaining length of 1 modulo 4 or a character
    outside the alphabet makes it throw ([None]). *)
Definition atob (data : jsstring) : option jsstring :=
  let data1 := List.filter (fun c => negb (ascii_whitespace c)) data in
  let data2 :=
    if (Z.of_nat (length data1) mod 4 =? 0)
    then strip_equals (strip_equals data1) else data1 in
  if Z.of_nat (length data2) mod 4 =? 1 then None
  else match base64_values data2 with
       | Some vs => Some (base64_bytes vs)
       | None => None
       end.

(** [String.fromCharCode(c1, ..., cn)]. *)
Definition String_fromCharCode (codes : list Z) : jsstring :=
  map (fun c => c mod 65536) codes.

(** A call takes only as many arguments as the engine's stack holds; with
    more, the call throws a RangeError before the function runs. The
    limit is the engine's own. No engine in use takes fewer than 65535
    arguments (JavaScriptCore takes 65536, V8 about 125000 with its default
    stack); [headroom] is what the engine takes beyond that. *)
Definition argument_limit (headroom : nat) : Z := 65535 + Z.of_nat headroom.

(** [f(...xs)]: the spread passes one argument for each element. [None] is
    the RangeError. *)
Definition spread {A B} (headroom : nat) (f : list A -> B) (xs : list A)
    : option B :=
  if Z.of_nat (length xs) <=? argument_limit headroom then Some (f xs)
  else None.

(** [ab2base64]: [None] when the spread or [btoa] throws. *)
Definition ab2base64 (headroom : nat) (buffer : bytes) : option jsstring :=
  match spread headroom String_fromCharCode buffer with
  | Some binary => btoa binary
  | None => None
  end.

(** [base642ab]: the character codes of [atob(base64)]. *)
Definition base642ab (base64 : jsstring) : option bytes := atob base64.

(** *** Vocabulary for the properties of the codec *)

(** A Unicode scalar value: a code point that is no surrogate. *)
Definition scalar (c : Z) : Prop :=
  0 <= c < 0xD800 \/ 0xE000 <= c < 0x110000.

(** The 6-bit values of a byte sequence, and the number of [=] that pad
    its encoding. *)
Fixpoint sextets (data : bytes) : list Z :=
  match data with
  | a :: b :: c :: rest =>
      a / 4 :: (a mod 4 * 16 + b / 16) :: (b mod 16 * 4 + c / 64) :: c mod 64
        :: sextets rest
  | [a; b] => [a / 4; a mod 4 * 16 + b / 16; b mod 16 * 4]
  | [a] => [a / 4; a mod 4 * 16]
  | [] => []
  end.

Fixpoint padding (data : bytes) : nat :=
  match data with
  | _ :: _ :: _ :: rest => padding rest
  | [_; _] => 1
  | [_] => 2
  | [] => 0
  end.

Definition sextet (v : Z) : Prop := 0 <= v < 64.

(** Whether a string starts with U+FEFF. *)
Definition starts_with_bom (s : jsstring) : bool :=
  match s with
  | u :: _ => u =? 0xFEFF
  | [] => false
  end.

End Codec.

(** ** Encryption and key management (frontend/src/utils/encryption.ts) *)

Module Encryption.
Import Codec.

Local Open Scope Z_scope.

Definition KEY_LENGTH : Z := 256.
Definition PBKDF2_ITERATIONS : Z := 100000.
Definition SALT_LENGTH : nat := 16.
Definition IV_LENGTH : nat := 12.

(** The source of [crypto.getRandomValues]: an unbounded supply of
    values, read from the front. *)
Definition entropy := nat -> Z.

(** [crypto.getRandomValues(new Uint8Array(n))]: a new array of [n]
    fresh bytes, and the supply that is left. *)
Definition getRandomValues (n : nat) (e : entropy) : Uint8Array * entropy :=
  (new_Uint8Array (map (fun i => e i mod 256) (seq 0 n)),
   fun i => e (n + i)%nat).

Definition generateSalt (e : entropy) : Uint8Array * entropy :=
  getRandomValues SALT_LENGTH e.

(** [localStorage]: items by key. *)
Abbreviation storage := (gmap jsstring jsstring).

(** [ToString] of an integer user id, in decimal. *)
Definition Number_toString (n : Z) : jsstring := lit (pretty n).

(** The envelope [encryptData] returns. *)
Record envelope := mkEnvelope {
  encryptedData : jsstring;
  iv : jsstring
}.

(** The object [encryptTransaction] returns. *)
Module EncryptedTransaction.
Record t := mk {
  encrypted_data : jsstring;
  iv : jsstring;
  amount_encrypted : jsstring
}.
End EncryptedTransaction.

Section WebCrypto.

(** The arguments the engine takes beyond 65535 (see [argument_limit]). *)
Variable headroom : nat.

(** The Web Crypto primitives, which the module only calls:
    - [PBKDF2 password salt iterations length]: [importKey] of the raw
      password followed by [deriveKey] with PBKDF2 over SHA-256, giving an
      AES-GCM key of [length] bits;
    - [AES_GCM_encrypt key iv data]: ciphertext with the tag appended;
    - [AES_GCM_decrypt key iv data]: [None] when the tag does not verify
      (the promise rejects with an OperationError). *)
Variable CryptoKey : Type.
Variable PBKDF2 : bytes -> bytes -> Z -> Z -> CryptoKey.
Variable AES_GCM_encrypt : CryptoKey -> bytes -> bytes -> bytes.
Variable AES_GCM_decrypt : CryptoKey -> bytes -> bytes -> option bytes.

(** [JSON.parse]: [None] is the SyntaxError. *)
Variable JSON_value : Type.
Variable JSON_parse : jsstring -> option JSON_value.

Definition deriveKey (password : jsstring) (salt : Uint8Array) : CryptoKey :=
  let passwordBuffer := str2ab password in
  PBKDF2 passwordBuffer (elements salt) PBKDF2_ITERATIONS KEY_LENGTH.

(** [encryptData]: [None] stands for a rejected promise. The IV given to
    the cipher is the array, the IV returned is its [buffer]. *)
Definition encryptData (data : jsstring) (key : CryptoKey) (e : entropy)
    : option envelope * entropy :=
  let (iv, e') := getRandomValues IV_LENGTH e in
  let encryptedBuffer := AES_GCM_encrypt key (elements iv) (str2ab data) in
  (match ab2base64 headroom encryptedBuffer,
         ab2base64 headroom (buffer iv) with
   | Some encryptedData, Some iv => Some (mkEnvelope encryptedData iv)
   | _, _ => None
   end, e').

Definition decryptData (encryptedData iv : jsstring) (key : CryptoKey)
    : option jsstring :=
  match base642ab encryptedData with
  | Some encryptedBuffer =>
      match base642ab iv with
      | Some ivBuffer =>
          match AES_GCM_decrypt key ivBuffer encryptedBuffer with
          | Some decryptedBuffer => Some (ab2str decryptedBuffer)
          | None => None
          end
      | None => None
      end
  | None => None
  end.

(** [decryptTransaction]: the parsed JSON text of the decrypted record. *)
Definition decryptTransaction (encryptedData iv : jsstring) (key : CryptoKey)
    : option JSON_value :=
  match decryptData encryptedData iv key with
  | Some decryptedJson => JSON_parse decryptedJson
  | None => None
  end.

(** The object given to [encryptTransaction]: any object with a numeric
    [amount] (the hook passes its whole input, [date] included);
    [JSON_stringify] is [JSON.stringify] on it, [amount_toString] is
    [Number.prototype.toString]. *)
Variable PlainTransaction : Type.
Variable amount : PlainTransaction -> JS.number.
Variable JSON_stringify : PlainTransaction -> jsstring.
Variable amount_toString : JS.number -> jsstring.

(** [encryptTransaction]: two calls of [encryptData], the second for the
    amount alone; of the second envelope only the ciphertext is
    returned. *)
Definition encryptTransaction (transaction : PlainTransaction)
    (key : CryptoKey) (e : entropy)
    : option EncryptedTransaction.t * entropy :=
  let transactionJson := JSON_stringify transaction in
  match encryptData transactionJson key e with
  | (Some envelope, e1) =>
      match encryptData (amount_toString (amount transaction)) key e1 with
      | (Some amountEncrypted, e2) =>
          (Some (EncryptedTransaction.mk (encryptedData envelope)
                   (iv envelope) (encryptedData amountEncrypted)), e2)
      | (None, e2) => (None, e2)
      end
  | (None, e1) => (None, e1)
  end.

(** *** SaltStorage *)

Definition salt_key (userId : Z) : jsstring :=
  lit "salt_" ++ Number_toString userId.

(** [saveSalt]: what is encoded is [salt.buffer], the whole buffer under
    the array. [None] when [ab2base64] throws; [setItem] replaces the item
    stored under the key, if any. *)
Definition saveSalt (userId : Z) (salt : Uint8Array) (ls : storage)
    : option storage :=
  match ab2base64 headroom (buffer salt) with
  | Some saltBase64 => Some (<[salt_key userId := saltBase64]> ls)
  | None => None
  end.

(** [getSalt]: [Some None] is [null] (no item, or an empty one), [None] is
    [atob] throwing. *)
Definition getSalt (userId : Z) (ls : storage)
    : option (option Uint8Array) :=
  match ls !! salt_key userId with
  | Some saltBase64 =>
      match saltBase64 with
      | [] => Some None
      | _ :: _ =>
          match base642ab saltBase64 with
          | Some saltBuffer => Some (Some (new_Uint8Array saltBuffer))
          | None => None
          end
      end
  | None => Some None
  end.

Definition removeSalt (userId : Z) (ls : storage) : storage :=
  base.delete (salt_key userId) ls.

(** *** KeyManager *)

(** What a call that may throw gives: the key, an [Error] with its
    message, or the [InvalidCharacterError] of [atob]. *)
Inductive key_result :=
| Key (key : CryptoKey)
| Thrown (message : jsstring)
| InvalidCharacterError.

Definition initializeForUser (userId : Z) (password : jsstring)
    (ls : storage) (e : entropy) : option (CryptoKey * storage) * entropy :=
  let (salt, e') := generateSalt e in
  (match saveSalt userId salt ls with
   | Some ls' => Some (deriveKey password salt, ls')
   | None => None
   end, e').

Definition getKeyForUser (userId : Z) (password : jsstring) (ls : storage)
    : key_result :=
  match getSalt userId ls with
  | Some (Some salt) => Key (deriveKey password salt)
  | Some None =>
      Thrown (lit "Encryption salt not found. User may need to re-register.")
  | None => InvalidCharacterError
  end.

Definition clearUserData (userId : Z) (ls : storage) : storage :=
  removeSalt userId ls.

End WebCrypto.

End Encryption.

(** ** The transactions hook (frontend/src/hooks/useTransactions.ts) *)

Module UseTransactions.
Import Codec.

(** A stored transaction, as the API returns it (types/index.ts). *)
Record Transaction := mkTransaction {
  id : Z;
  user_id : Z;
  encrypted_data : jsstring;
  iv : jsstring;
  category : option jsstring;
  amount_encrypted : jsstring;
  date : jsstring;
  created_at : jsstring;
  updated_at : jsstring
}.

(** A settled promise: fulfilled with a value, or rejected with an error
    whose [message] may be missing. *)
Inductive settled (A : Type) :=
| Fulfilled (value : A)
| Rejected (message : option jsstring).
Arguments Fulfilled {A} value.
Arguments Rejected {A} message.

(** [Promise.all]: the values in the order of the promises, or the reason
    of a rejected one (the earliest in the list here; in the hook every
    reason is the same error). *)
Fixpoint Promise_all {A} (promises : list (settled A)) : settled (list A) :=
  match promises with
  | [] => Fulfilled []
  | Fulfilled a :: rest =>
      match Promise_all rest with
      | Fulfilled values => Fulfilled (a :: values)
      | Rejected m => Rejected m
      end
  | Rejected m :: _ => Rejected m
  end.

(** [err.message || fallback]. *)
Definition message_or (message : option jsstring) (fallback : jsstring)
    : jsstring :=
  match message with
  | Some (c :: m) => c :: m
  | _ => fallback
  end.

(** The error every failed record is reported as. *)
Definition decrypt_failure : jsstring :=
  lit "Failed to decrypt transaction data".

Section Hook.

Variable CryptoKey : Type.
Variable AES_GCM_decrypt : CryptoKey -> bytes -> bytes -> option bytes.

Variable JSON_value : Type.
Variable JSON_parse : jsstring -> option JSON_value.

Local Abbreviation decryptTransaction :=
  (Encryption.decryptTransaction CryptoKey AES_GCM_decrypt JSON_value
     JSON_parse).

(** An element of the hook's list: [tx.id], the members of the decrypted
    object, and the plaintext columns of [tx]. *)
Record DecryptedTransaction := mkDecrypted {
  d_id : Z;
  d_decryptedData : JSON_value;
  d_date : jsstring;
  d_created_at : jsstring;
  d_updated_at : jsstring
}.

(** The state of the hook. *)
Record state := mkState {
  transactions : list DecryptedTransaction;
  isLoading : bool;
  error : option jsstring
}.

Definition setTransactions (v : list DecryptedTransaction) (st : state) :=
  mkState v (isLoading st) (error st).
Definition setIsLoading (v : bool) (st : state) :=
  mkState (transactions st) v (error st).
Definition setError (v : option jsstring) (st : state) :=
  mkState (transactions st) (isLoading st) v.

(** The callback mapped over [response.transactions]: any failure while
    decrypting is replaced by one fixed error. *)
Definition decrypt_one (encryptionKey : CryptoKey) (tx : Transaction)
    : settled DecryptedTransaction :=
  match decryptTransaction (encrypted_data tx) (iv tx) encryptionKey with
  | Some decryptedData =>
      Fulfilled (mkDecrypted (id tx) decryptedData (date tx) (created_at tx)
                             (updated_at tx))
  | None => Rejected (Some (lit "Failed to decrypt transaction data"))
  end.

(** [fetchTransactions], given how [api.getTransactions] settles. *)
Definition fetchTransactions (encryptionKey : option CryptoKey)
    (response : settled (list Transaction)) (st : state) : state :=
  match encryptionKey with
  | None => setError (Some (lit "Encryption key not available")) st
  | Some key =>
      let st := setError None (setIsLoading true st) in
      let outcome :=
        match response with
        | Fulfilled txs => Promise_all (map (decrypt_one key) txs)
        | Rejected m => Rejected m
        end in
      match outcome with
      | Fulfilled decrypted =>
          setIsLoading false (setTransactions decrypted st)
      | Rejected m =>
          setIsLoading false
            (setError (Some (message_or m (lit "Failed to fetch transactions")))
                      st)
      end
  end.

(** Whether a stored record decrypts (and parses) under the key. *)
Definition decrypts (key : CryptoKey) (tx : Transaction) : bool :=
  match decryptTransaction (encrypted_data tx) (iv tx) key with
  | Some _ => true
  | None => false
  end.

End Hook.

End UseTransactions.

(** ** The authentication hook (frontend/src/hooks/useAuth.ts) *)

Module UseAuth.
Import Codec Encryption.

(** types/index.ts *)
Record User := mkUser {
  id : Z;
  email : jsstring;
  created_at : option jsstring
}.

Record AuthResponse := mkAuthResponse {
  message : jsstring;
  token : jsstring;
  user : User
}.

(** How a call of the API client settles: with the response body, or
    rejected with the axios error, of which the hook and the client read
    [error.response?.status] and [error.response?.data?.error]. *)
Inductive api_result (A : Type) :=
| Resolved (data : A)
| Failed (status : option Z) (error : option jsstring).
Arguments Resolved {A} data.
Arguments Failed {A} status error.

(** The response interceptor of the API client (services/api.ts): a 401
    removes the session from [localStorage] before the error is passed
    on. (It also sends the browser to the login page; navigation is not
    part of the state here.) *)
Definition unauthorized_interceptor (status : option Z) (ls : storage)
    : storage :=
  match status with
  | Some 401%Z => base.delete (lit "user") (base.delete (lit "auth_token") ls)
  | _ => ls
  end.

Section Hook.

(** The arguments the engine takes beyond 65535 (see [argument_limit]). *)
Variable headroom : nat.

Variable CryptoKey : Type.
Variable PBKDF2 : bytes -> bytes -> Z -> Z -> CryptoKey.

(** [JSON.stringify(response.user)]. *)
Variable JSON_stringify : User -> jsstring.

Local Abbreviation getKeyForUser := (getKeyForUser CryptoKey PBKDF2).
Local Abbreviation initializeForUser :=
  (initializeForUser headroom CryptoKey PBKDF2).

(** The state of the hook. *)
Record state := mkState {
  st_user : option User;
  encryptionKey : option CryptoKey;
  isLoading : bool
}.

Definition setUser (v : option User) (st : state) :=
  mkState v (encryptionKey st) (isLoading st).
Definition setEncryptionKey (v : option CryptoKey) (st : state) :=
  mkState (st_user st) v (isLoading st).
Definition setIsLoading (v : bool) (st : state) :=
  mkState (st_user st) (encryptionKey st) v.

Definition isAuthenticated (st : state) : bool :=
  match st_user st with Some _ => true | None => false end.

(** What [login] and [register] write before they ask for the key. *)
Definition store_session (response : AuthResponse) (ls : storage) : storage :=
  <[lit "user" := JSON_stringify (user response)]>
    (<[lit "auth_token" := token response]> ls).

(** [login], given how [api.login(email, password)] settles: the message
    of the error it throws, if any, with [localStorage] and the state it
    leaves. *)
Definition login (response : api_result AuthResponse) (password : jsstring)
    (ls : storage) (st : state) : option jsstring * storage * state :=
  let st := setIsLoading true st in
  match response with
  | Resolved response =>
      let ls := store_session response ls in
      let st := setUser (Some (user response)) st in
      match getKeyForUser (id (user response)) password ls with
      | Key _ key =>
          (None, ls, setIsLoading false (setEncryptionKey (Some key) st))
      | Thrown _ _ | InvalidCharacterError _ =>
          (Some (lit "Login failed"), ls, setIsLoading false st)
      end
  | Failed status error =>
      (Some (UseTransactions.message_or error (lit "Login failed")),
       unauthorized_interceptor status ls, setIsLoading false st)
  end.

(** [register], given how [api.register(email, password)] settles. *)
Definition register (response : api_result AuthResponse)
    (password : jsstring) (ls : storage) (st : state) (e : entropy)
    : option jsstring * storage * state * entropy :=
  let st := setIsLoading true st in
  match response with
  | Resolved response =>
      let ls := store_session response ls in
      let st := setUser (Some (user response)) st in
      match initializeForUser (id (user response)) password ls e with
      | (Some (key, ls'), e') =>
          (None, ls', setIsLoading false (setEncryptionKey (Some key) st), e')
      | (None, e') =>
          (Some (lit "Registration failed"), ls, setIsLoading false st, e')
      end
  | Failed status error =>
      (Some (UseTransactions.message_or error (lit "Registration failed")),
       unauthorized_interceptor status ls, setIsLoading false st, e)
  end.

Definition logout (ls : storage) (st : state) : storage * state :=
  let ls :=
    match st_user st with
    | Some user => clearUserData (id user) ls
    | None => ls
    end in
  (base.delete (lit "user") (base.delete (lit "auth_token") ls),
   setEncryptionKey None (setUser None st)).

End Hook.

End UseAuth.

(** ** A small cipher with the interface of the Web Crypto calls

    The properties below hold for every implementation of the Web Crypto
    primitives that decrypts what it encrypted; this one, with a one-byte
    checksum as its tag, serves to run the definitions. *)

Module ToyCrypto.
Import Codec.

Local Open Scope Z_scope.

Definition CryptoKey := bytes.

Definition PBKDF2 (password salt : bytes) (iterations length : Z)
    : CryptoKey :=
  password ++ salt.

Definition checksum (key : CryptoKey) (iv data : bytes) : Z :=
  fold_right Z.add 0 (key ++ iv ++ data) mod 256.

Definition AES_GCM_encrypt (key : CryptoKey) (iv data : bytes) : bytes :=
  data ++ [checksum key iv data].

Definition AES_GCM_decrypt (key : CryptoKey) (iv data : bytes)
    : option bytes :=
  let body := List.removelast data in
  if (0 <? Z.of_nat (length data)) && (List.last data 0 =? checksum key iv body)
  then Some body
  else None.

(** A parser that accepts every text as its own value. *)
Definition JSON_value := jsstring.
Definition JSON_parse (text : jsstring) : option JSON_value := Some text.

End ToyCrypto.

(** ** Concrete databases, histories and records *)

Module Examples.
Import Database.

(** A Finding with a reference to transaction 1, owned by user 1, in a
    database whose connection enforces foreign keys. *)
Definition finding_1 : Anomaly :=
  mkAnomaly 1 1 (Some 1%Z) "unusual_amount" high None "2024-01-01 00:00:00"
            false.

Definition db_1 : db :=
  mkDb {[1%Z]} 1 {[1%Z := 1%Z]} 1 {[1%Z := finding_1]} 1 true
       (fun _ => "2024-01-01 00:00:00").




Definition finding_acknowledged : Database.Anomaly :=
  Database.mkAnomaly 1 1 (Some 1%Z) "unusual_amount" Database.high None
    "2024-01-01 00:00:00" true.

Definition db_acknowledged : Database.db :=
  Database.mkDb {[1%Z]} 1 {[1%Z := 1%Z]} 1 {[1%Z := finding_acknowledged]} 1
    true (fun _ => "2024-01-01 00:00:00").

Definition entropy_example : Encryption.entropy :=
  fun i => (Z.of_nat i * 37 + 11)%Z.

(** An engine whose calls take 65536 arguments. *)
Definition headroom_example : nat := 1.

Definition salt_example : Codec.Uint8Array :=
  (Encryption.generateSalt entropy_example).1.

Definition key_example : ToyCrypto.CryptoKey :=
  Encryption.deriveKey ToyCrypto.CryptoKey ToyCrypto.PBKDF2
    (Codec.lit "correct horse") salt_example.

Definition other_key_example : ToyCrypto.CryptoKey :=
  Encryption.deriveKey ToyCrypto.CryptoKey ToyCrypto.PBKDF2
    (Codec.lit "battery staple") salt_example.


(** A store that already holds a salt for user 7. *)
Definition storage_example : Encryption.storage :=
  {[ Encryption.salt_key 7 := Codec.lit "b2xkIHNhbHQgb2YgdXNlciA3" ]}.

(** Two stored records: one encrypted under the session key, one under
    another key. *)
Definition envelope_under (key : ToyCrypto.CryptoKey) : Encryption.envelope :=
  match (Encryption.encryptData headroom_example ToyCrypto.CryptoKey
           ToyCrypto.AES_GCM_encrypt (Codec.lit "{}") key entropy_example).1
  with
  | Some env => env
  | None => Encryption.mkEnvelope [] []
  end.

Definition stored_under (i : Z) (key : ToyCrypto.CryptoKey)
    : UseTransactions.Transaction :=
  UseTransactions.mkTransaction i 1
    (Encryption.encryptedData (envelope_under key))
    (Encryption.iv (envelope_under key))
    (Some (Codec.lit "Food")) (Codec.lit "AA==") (Codec.lit "2024-02-01")
    (Codec.lit "2024-02-01 10:00:00") (Codec.lit "2024-02-01 10:00:00").

Definition good_record : UseTransactions.Transaction :=
  stored_under 1 key_example.
Definition foreign_record : UseTransactions.Transaction :=
  stored_under 2 other_key_example.

Definition fetch_example (txs : list UseTransactions.Transaction)
    : UseTransactions.state ToyCrypto.JSON_value :=
  UseTransactions.fetchTransactions ToyCrypto.CryptoKey
    ToyCrypto.AES_GCM_decrypt ToyCrypto.JSON_value ToyCrypto.JSON_parse
    (Some key_example) (UseTransactions.Fulfilled txs)
    (UseTransactions.mkState ToyCrypto.JSON_value [] false None).

(** A session of user 7, whose salt [storage_example] holds. *)
Definition user_7 : UseAuth.User :=
  UseAuth.mkUser 7 (Codec.lit "user7@example.org") None.

Definition response_7 : UseAuth.AuthResponse :=
  UseAuth.mkAuthResponse (Codec.lit "Login successful") (Codec.lit "token-7")
    user_7.

Definition session_7 : UseAuth.state ToyCrypto.CryptoKey :=
  UseAuth.mkState ToyCrypto.CryptoKey (Some user_7) (Some key_example) false.

(** A stand-in for [JSON.stringify] on a user. *)
Definition user_text (u : UseAuth.User) : Codec.jsstring :=
  Codec.lit "{}".

(** [encryptTransaction] with the small cipher, on objects that are given
    by their JSON text and have the amount 12.5. *)
Definition encryptTransaction_example (text : Codec.jsstring)
    : option Encryption.EncryptedTransaction.t * Encryption.entropy :=
  Encryption.encryptTransaction headroom_example ToyCrypto.CryptoKey
    ToyCrypto.AES_GCM_encrypt Codec.jsstring (fun _ => 12.5%float) (fun t => t)
    (fun _ => Codec.lit "12.5") text key_example entropy_example.


End Examples.

(** * Properties *)

(** ** Statistics and the unusual-amount rule *)

Section DetectorProperties.
Import JS Database AnomalyDetector.
Local Open Scope float_scope.

Variable toFixed : number -> nat -> string.

(** C6: [mean] and [standardDeviation] return 0 on the empty list, and
    [zScore] returns 0 whenever the standard deviation is zero (of either
    sign), whatever the value and the mean are: no division takes place. *)
Theorem statistics_edge_cases :
  mean [] = 0
  /\ standardDeviation [] = 0
  /\ (forall x m : number, zScore x m 0 = 0)
  /\ (forall x m : number, zScore x m (-0) = 0).
Proof.
  repeat split; intros; reflexivity.
Qed.

(** C7: with fewer than five historical amounts [detectAmountAnomaly]
    returns the fixed non-anomalous result of type "insufficient_data", for
    every candidate amount and every threshold; the function is total, so
    no input makes it raise. *)
Theorem insufficient_data (amount threshold : number)
    (historicalAmounts : list number) :
  (length historicalAmounts < 5)%nat ->
  detectAmountAnomaly toFixed amount historicalAmounts threshold
  = mkResult false "insufficient_data" low
      "Not enough historical data for analysis".
Proof.
  intros Hlen. unfold detectAmountAnomaly.
  destruct (Nat.ltb_spec (length historicalAmounts) 5) as [_ | Hge].
  - reflexivity.
  - lia.
Qed.

(** *** The boundary example: nine amounts of 10 and one of 100 *)

Lemma all_masks_complete (mask : list bool) :
  In mask (all_masks (length mask)).
Proof.
  induction mask as [| b mask IH]; simpl.
  - now left.
  - apply in_flat_map. exists mask. split; [exact IH |].
    destruct b; simpl; auto.
Qed.

Lemma map_filter_select {A B} (g : A -> B) (f : A -> bool) (l : list A) :
  map g (List.filter f l) = select (map f l) (map g l).
Proof.
  induction l as [| x l IH]; simpl; [reflexivity |].
  destruct (f x); simpl; now rewrite IH.
Qed.

Lemma category_rule_silent_at_10 (mask : list bool) :
  length mask = 10%nat -> category_rule toFixed 10 mask = false.
Proof.
  intros Hlen.
  assert (Hall : forallb (fun m => negb (category_rule toFixed 10 m)) (all_masks 10)
                 = true) by (vm_compute; reflexivity).
  rewrite forallb_forall in Hall.
  specialize (Hall mask). rewrite <- Hlen in Hall.
  specialize (Hall (all_masks_complete mask)).
  now destruct (category_rule toFixed 10 mask).
Qed.

Lemma amount_rule_at_10 :
  isAnomaly (detectAmountAnomaly toFixed 10 boundary_amounts default_threshold)
  = false.
Proof. vm_compute. reflexivity. Qed.

Lemma large_rule_at_10 :
  isAnomaly
    (detectLargeTransaction toFixed 10
       (to_number (percentile (sort_numeric boundary_amounts) 90)))
  = false.
Proof. vm_compute. reflexivity. Qed.

Lemma amount_rule_at_500 :
  exists text,
    detectAmountAnomaly toFixed 500 boundary_amounts default_threshold
    = mkResult true "unusual_amount" high text.
Proof. eexists. vm_compute. reflexivity. Qed.

(** C3: with the historical amounts [10 (nine times), 100], whose mean is
    19 and population standard deviation 27, [analyzeTransaction] reports
    nothing for a candidate amount of 10, whatever the categories, ids and
    dates are; for a candidate of 500 its first finding is the
    "unusual_amount" one, with severity high (so at least medium). *)
Theorem anomaly_boundary (candidate10 candidate500 : DecryptedTransaction)
    (history : list DecryptedTransaction) :
  map amount history = boundary_amounts ->
  amount candidate10 = 10 ->
  amount candidate500 = 500 ->
  mean boundary_amounts = 19
  /\ standardDeviation boundary_amounts = 27
  /\ analyzeTransaction toFixed candidate10 history = []
  /\ exists finding rest,
       analyzeTransaction toFixed candidate500 history = finding :: rest
       /\ isAnomaly finding = true
       /\ type finding = "unusual_amount"
       /\ severity finding = high
       /\ (severity_rank medium <= severity_rank (severity finding))%nat.
Proof.
  intros Hmap H10 H500.
  split; [vm_compute; reflexivity |].
  split; [vm_compute; reflexivity |].
  split.
  - unfold analyzeTransaction. cbv zeta.
    rewrite Hmap, H10, amount_rule_at_10.
    replace (10 <=? length boundary_amounts)%nat with true by reflexivity.
    rewrite large_rule_at_10. cbv iota. cbn [app].
    destruct (truthy (category candidate10)); [| reflexivity].
    set (f := fun t => category_eq (category t) (category candidate10)).
    rewrite <- (length_map amount (List.filter f history)).
    rewrite map_filter_select, Hmap.
    pose proof (category_rule_silent_at_10 (map f history)) as Hsilent.
    rewrite length_map, <- (length_map amount history), Hmap in Hsilent.
    specialize (Hsilent eq_refl). unfold category_rule in Hsilent.
    cbv zeta in Hsilent.
    destruct (5 <=? length (select (map f history) boundary_amounts))%nat;
      [| reflexivity].
    rewrite andb_true_l in Hsilent. now rewrite Hsilent.
  - destruct amount_rule_at_500 as [text Hamount].
    unfold analyzeTransaction. cbv zeta.
    rewrite Hmap, H500, Hamount. simpl isAnomaly. cbv iota.
    eexists. eexists. split; [reflexivity |].
    simpl. repeat split; lia.
Qed.



End DetectorProperties.


(** ** Absolute values *)

Section AbsProperties.
Import JS Database AnomalyDetector.
Local Open Scope float_scope.




End AbsProperties.

(** ** The retrospective scan *)

Section BatchProperties.
Import JS Database Statements AnomalyDetector.
Local Open Scope float_scope.

Variable toFixed : number -> nat -> string.
Variable userId : Z.





End BatchProperties.

(** ** The anomalies table: acknowledgement and deletion *)

Section TableProperties.
Import Database Statements Examples.

Lemma set_acknowledged_fixed (a : Anomaly) :
  acknowledged a = true -> AnomalyModel.set_acknowledged a = a.
Proof.
  destruct a as [i u t ty sv ds at_ ack]. simpl. intros ->. reflexivity.
Qed.

Lemma set_anomalies_same (d : db) :
  set_anomalies d (anomalies d) (anomalies_seq d) = d.
Proof. now destruct d. Qed.

Lemma cascade_lookup_Some (d : db) gone i a :
  TransactionModel.cascade d gone !! i = Some a -> anomalies d !! i = Some a.
Proof.
  unfold TransactionModel.cascade. destruct (foreign_keys d); [| auto].
  intros H. apply map_lookup_filter_Some in H. tauto.
Qed.

(** Where a row found after a statement comes from: it was there before,
    it is the acknowledged copy of the row that was there, or it is the
    row that [create] just gave the next id. *)
Lemma exec_lookup_Some (s : statement) (d : db) i a' :
  anomalies (exec s d) !! i = Some a' ->
  anomalies d !! i = Some a'
  \/ (exists a, anomalies d !! i = Some a
                /\ a' = AnomalyModel.set_acknowledged a)
  \/ (i = (anomalies_seq d + 1)%Z
      /\ anomalies_seq (exec s d) = (anomalies_seq d + 1)%Z).
Proof.
  destruct s as [data | j | j | u | j | u | q | u]; simpl.
  - unfold AnomalyModel.create.
    destruct (AnomalyModel.foreign_keys_hold _ _ _); simpl; [| auto].
    destruct (decide (i = anomalies_seq d + 1)%Z) as [-> | Hne]; [auto |].
    rewrite lookup_insert_ne by congruence. auto.
  - unfold AnomalyModel.acknowledge.
    destruct (anomalies d !! j) as [a |] eqn:Hj; simpl; [| auto].
    destruct (decide (i = j)) as [-> | Hne].
    + rewrite lookup_insert_eq. intros [= <-]. right. left. eauto.
    + rewrite lookup_insert_ne by congruence. auto.
  - unfold AnomalyModel.delete.
    destruct (anomalies d !! j) as [a |] eqn:Hj; simpl; [| auto].
    intros H. apply lookup_delete_Some in H. tauto.
  - unfold TransactionModel.create.
    destruct (_ || _); simpl; auto.
  - unfold TransactionModel.delete.
    destruct (transactions d !! j); simpl; [| auto].
    intros H. left. now apply cascade_lookup_Some in H.
  - unfold TransactionModel.deleteByUserId. simpl.
    intros H. left. now apply cascade_lookup_Some in H.
  - unfold UserModel.create. destruct q; simpl; auto.
  - unfold UserModel.delete_cascade.
    destruct (bool_decide _); simpl; [| auto].
    destruct (foreign_keys d); simpl; [| auto].
    intros H. apply map_lookup_filter_Some in H. tauto.
Qed.

Lemma exec_seq_mono (s : statement) (d : db) :
  (anomalies_seq d <= anomalies_seq (exec s d))%Z.
Proof.
  destruct s as [data | j | j | u | j | u | q | u]; simpl.
  - unfold AnomalyModel.create.
    destruct (AnomalyModel.foreign_keys_hold _ _ _); simpl; lia.
  - unfold AnomalyModel.acknowledge.
    destruct (anomalies d !! j); simpl; lia.
  - unfold AnomalyModel.delete. destruct (anomalies d !! j); simpl; lia.
  - unfold TransactionModel.create. destruct (_ || _); simpl; lia.
  - unfold TransactionModel.delete.
    destruct (transactions d !! j); simpl; lia.
  - unfold TransactionModel.deleteByUserId. simpl. lia.
  - unfold UserModel.create. destruct q; simpl; lia.
  - unfold UserModel.delete_cascade.
    destruct (bool_decide _); simpl; [| lia].
    destruct (foreign_keys d); simpl; lia.
Qed.

Lemma exec_wf (s : statement) (d : db) : wf d -> wf (exec s d).
Proof.
  intros Hwf i a' Hi.
  pose proof (exec_seq_mono s d) as Hmono.
  destruct (exec_lookup_Some s d i a' Hi) as [H | [[a [H _]] | [-> Hseq]]].
  - apply Hwf in H. lia.
  - apply Hwf in H. lia.
  - lia.
Qed.

(** An acknowledged row, once the counter has passed its id, is after any
    statements either gone or exactly the row it was. *)
Lemma exec_all_acknowledged (ss : list statement) (d : db) i a :
  wf d ->
  (i <= anomalies_seq d)%Z ->
  (forall a0, anomalies d !! i = Some a0 -> a0 = a) ->
  acknowledged a = true ->
  forall a', anomalies (exec_all ss d) !! i = Some a' -> a' = a.
Proof.
  revert d. induction ss as [| s ss IH]; intros d Hwf Hle Hrow Hack a' Ha'.
  - simpl in Ha'. auto.
  - simpl in Ha'. revert Ha'. apply IH; auto.
    + now apply exec_wf.
    + pose proof (exec_seq_mono s d). lia.
    + intros a0 Ha0.
      destruct (exec_lookup_Some s d i a0 Ha0) as [H | [[a1 [H ->]] | [-> _]]].
      * auto.
      * apply Hrow in H. subst a1. now apply set_acknowledged_fixed.
      * lia.
Qed.

(** C8: acknowledging a Finding that exists succeeds and sets its flag,
    keeping every other field of the row and every other row; doing it
    again succeeds and changes nothing at all; and whatever statements run
    afterwards, a row found under the id of an acknowledged Finding is that
    same acknowledged row: nothing sets the flag back. *)
Theorem acknowledge_idempotent_one_way :
  (forall (d : db) (i : Z) (a : Anomaly),
     anomalies d !! i = Some a ->
     exists d',
       AnomalyModel.acknowledge i d = (Ok true, d')
       /\ anomalies d' !! i = Some (AnomalyModel.set_acknowledged a)
       /\ (forall j, j <> i -> anomalies d' !! j = anomalies d !! j)
       /\ AnomalyModel.acknowledge i d' = (Ok true, d'))
  /\ (forall a : Anomaly,
        acknowledged (AnomalyModel.set_acknowledged a) = true
        /\ detected_at (AnomalyModel.set_acknowledged a) = detected_at a
        /\ anomaly_type (AnomalyModel.set_acknowledged a) = anomaly_type a
        /\ id (AnomalyModel.set_acknowledged a) = id a
        /\ user_id (AnomalyModel.set_acknowledged a) = user_id a
        /\ transaction_id (AnomalyModel.set_acknowledged a) = transaction_id a
        /\ severity (AnomalyModel.set_acknowledged a) = severity a
        /\ description (AnomalyModel.set_acknowledged a) = description a)
  /\ (forall (d : db) (i : Z) (a : Anomaly),
        anomalies d !! i = Some a ->
        acknowledged a = true ->
        AnomalyModel.acknowledge i d = (Ok true, d))
  /\ (forall (ss : list statement) (d : db) (i : Z) (a a' : Anomaly),
        wf d ->
        anomalies d !! i = Some a ->
        acknowledged a = true ->
        anomalies (exec_all ss d) !! i = Some a' ->
        a' = a /\ acknowledged a' = true).
Proof.
  assert (Hagain : forall d i a,
             anomalies d !! i = Some a -> acknowledged a = true ->
             AnomalyModel.acknowledge i d = (Ok true, d)).
  { intros d i a Hi Hack. unfold AnomalyModel.acknowledge. rewrite Hi.
    rewrite set_acknowledged_fixed by exact Hack.
    rewrite insert_id by exact Hi. now rewrite set_anomalies_same. }
  split; [| split; [| split]].
  - intros d i a Hi. eexists. unfold AnomalyModel.acknowledge at 1.
    rewrite Hi. split; [reflexivity |]. simpl.
    split; [apply lookup_insert_eq |].
    split; [intros j Hne; apply lookup_insert_ne; congruence |].
    apply (Hagain _ i (AnomalyModel.set_acknowledged a)); simpl;
      [apply lookup_insert_eq | reflexivity].
  - intros a. repeat split.
  - exact Hagain.
  - intros ss d i a a' Hwf Hi Hack Ha'.
    assert (a' = a) as ->; [| split; [reflexivity | exact Hack]].
    revert Ha'. apply exec_all_acknowledged; auto.
    + now apply (Hwf i a).
    + intros a0 Ha0. congruence.
Qed.

(** *** Deletion *)

(** C9, as stated, fails: in [db_1] the Finding 1 exists and user 1 keeps
    the account, yet [AnomalyModel.delete] removes the Finding, and so does
    deleting the transaction it references (the cascade of the schema),
    instead of leaving a dangling reference. *)
Lemma finding_deleted_without_user_deletion :
  anomalies db_1 !! 1%Z = Some finding_1
  /\ (AnomalyModel.delete 1 db_1).1 = Ok true
  /\ anomalies (AnomalyModel.delete 1 db_1).2 !! 1%Z = None
  /\ bool_decide (1%Z ∈ users (AnomalyModel.delete 1 db_1).2) = true
  /\ (TransactionModel.delete 1 db_1).1 = Ok true
  /\ anomalies (TransactionModel.delete 1 db_1).2 !! 1%Z = None
  /\ bool_decide (1%Z ∈ users (TransactionModel.delete 1 db_1).2) = true.
Proof. vm_compute. repeat split. Qed.

Lemma cascade_lookup_None (d : db) gone i a :
  anomalies d !! i = Some a ->
  TransactionModel.cascade d gone !! i = None ->
  foreign_keys d = true
  /\ exists t, transaction_id a = Some t /\ gone t = true.
Proof.
  unfold TransactionModel.cascade. intros Hi.
  destruct (foreign_keys d); [| congruence].
  intros H. split; [reflexivity |].
  apply map_lookup_filter_None in H. destruct H as [H | H]; [congruence |].
  specialize (H a Hi). simpl in H.
  destruct (transaction_id a) as [t |]; [| congruence].
  exists t. split; [reflexivity |]. now destruct (gone t).
Qed.

(** C9, amended: a Finding disappears in three ways only: by
    [AnomalyModel.delete] on its id; with foreign keys enforced, by the
    cascade when the transaction it references is deleted; and, with
    foreign keys enforced, by the cascade when its user, or the owner of
    the transaction it references, is deleted. With foreign keys enforced
    deleting a transaction does remove the Findings that reference it;
    only a connection that does not enforce them keeps such a Finding, with
    its reference dangling. *)
Theorem finding_deleted_only_by (s : statement) (d : db) (i : Z) (a : Anomaly) :
  anomalies d !! i = Some a ->
  (anomalies (exec s d) !! i = None ->
     s = AnomalyDelete i
     \/ (foreign_keys d = true
         /\ exists t, transaction_id a = Some t
                      /\ (s = TransactionDelete t
                          \/ exists u, s = TransactionDeleteByUserId u
                                       /\ transactions d !! t = Some u))
     \/ (foreign_keys d = true
         /\ exists u, s = UserDelete u
                      /\ (user_id a = u
                          \/ exists t, transaction_id a = Some t
                                       /\ transactions d !! t = Some u)))
  /\ (forall t u, transaction_id a = Some t ->
                  transactions d !! t = Some u ->
                  foreign_keys d = true ->
                  anomalies (exec (TransactionDelete t) d) !! i = None)
  /\ (forall t, foreign_keys d = false ->
                anomalies (exec (TransactionDelete t) d) !! i = Some a).
Proof.
  intros Hi. split; [| split].
  - destruct s as [data | j | j | u | j | u | q | u]; simpl.
    + unfold AnomalyModel.create.
      destruct (AnomalyModel.foreign_keys_hold _ _ _); simpl; [| congruence].
      intros H. apply lookup_insert_None in H. destruct H as [H _].
      congruence.
    + unfold AnomalyModel.acknowledge.
      destruct (anomalies d !! j) as [a0 |] eqn:Hj; simpl; [| congruence].
      intros H. apply lookup_insert_None in H. destruct H as [H _].
      congruence.
    + unfold AnomalyModel.delete.
      destruct (anomalies d !! j) as [a0 |] eqn:Hj; simpl; [| congruence].
      intros H. apply lookup_delete_None in H.
      destruct H as [-> | H]; [now left | congruence].
    + unfold TransactionModel.create. destruct (_ || _); simpl; congruence.
    + unfold TransactionModel.delete.
      destruct (transactions d !! j) as [u |] eqn:Hj; simpl; [| congruence].
      intros H. destruct (cascade_lookup_None _ _ _ _ Hi H)
        as [Hfk [t [Ht Hgone]]].
      apply Z.eqb_eq in Hgone. subst t. right. left. eauto.
    + unfold TransactionModel.deleteByUserId. simpl.
      intros H. destruct (cascade_lookup_None _ _ _ _ Hi H)
        as [Hfk [t [Ht Hgone]]].
      apply bool_decide_eq_true in Hgone. destruct Hgone as [u' Hu'].
      apply map_lookup_filter_Some in Hu'. destruct Hu' as [Hu' Heq].
      simpl in Heq. subst u'. right. left. split; [exact Hfk |].
      exists t. split; [exact Ht |]. right. eauto.
    + unfold UserModel.create. destruct q; simpl; congruence.
    + unfold UserModel.delete_cascade.
      destruct (bool_decide _); simpl; [| congruence].
      destruct (foreign_keys d) eqn:Hfk; simpl; [| congruence].
      intros H. apply map_lookup_filter_None in H.
      destruct H as [H | H]; [congruence |].
      specialize (H a Hi). simpl in H.
      right. right. split; [reflexivity |]. exists u. split; [reflexivity |].
      destruct (Z.eqb_spec (user_id a) u) as [Hu | Hu]; [now left |].
      right. simpl in H.
      destruct (transaction_id a) as [t |]; [| congruence].
      exists t. split; [reflexivity |].
      destruct (bool_decide _) eqn:Hdec; [| congruence].
      apply bool_decide_eq_true in Hdec. destruct Hdec as [u' Hu'].
      apply map_lookup_filter_Some in Hu'. destruct Hu' as [Hu' Heq].
      simpl in Heq. now subst u'.
  - intros t u Ht Htx Hfk. simpl. unfold TransactionModel.delete.
    rewrite Htx. simpl. unfold TransactionModel.cascade. rewrite Hfk.
    apply map_lookup_filter_None. right. intros a0 Ha0. simpl.
    assert (a0 = a) as -> by congruence. rewrite Ht.
    rewrite Z.eqb_refl. congruence.
  - intros t Hfk. simpl. unfold TransactionModel.delete.
    destruct (transactions d !! t); simpl; [| exact Hi].
    unfold TransactionModel.cascade. now rewrite Hfk.
Qed.

End TableProperties.

(** ** Text and Base64 round trips *)

Section CodecProperties.
Import Codec.
Local Open Scope Z_scope.

(** Decides the integer comparisons of the goal that linear arithmetic
    (with division and remainder by constants) settles. *)
Ltac arith := Z.div_mod_to_equations; lia.

Ltac decide_cmp :=
  repeat match goal with
  | |- context [(?a <=? ?b)] =>
      first [ replace (a <=? b) with true by (symmetry; apply Z.leb_le; arith)
            | replace (a <=? b) with false by (symmetry; apply Z.leb_gt; arith) ]
  | |- context [(?a <? ?b)] =>
      first [ replace (a <? b) with true by (symmetry; apply Z.ltb_lt; arith)
            | replace (a <? b) with false by (symmetry; apply Z.ltb_ge; arith) ]
  | |- context [(?a =? ?b)] =>
      first [ replace (a =? b) with true by (symmetry; apply Z.eqb_eq; arith)
            | replace (a =? b) with false by (symmetry; apply Z.eqb_neq; arith) ]
  end; cbn [andb orb negb].

Lemma decode_idle (b : Z) (rest : bytes) :
  utf8_decode_from decoder_init (b :: rest)
  = match lead_byte b with
    | Emit c => c :: utf8_decode_from decoder_init rest
    | Open st' => utf8_decode_from st' rest
    | Invalid => 0xFFFD :: utf8_decode_from decoder_init rest
    end.
Proof. reflexivity. Qed.

Lemma decode_continue (cp n lo hi b : Z) (rest : bytes) :
  n <> 0 -> lo <= b <= hi ->
  utf8_decode_from (mkDecoder cp n lo hi) (b :: rest)
  = if n =? 1 then (cp * 64 + (b - 0x80)) :: utf8_decode_from decoder_init rest
    else utf8_decode_from (mkDecoder (cp * 64 + (b - 0x80)) (n - 1) 0x80 0xBF)
                          rest.
Proof.
  intros Hn Hb. cbn [utf8_decode_from bytes_needed lower_boundary
                     upper_boundary code_point].
  decide_cmp. reflexivity.
Qed.

Lemma utf8_decode_bytes (c : Z) (rest : bytes) :
  scalar c ->
  utf8_decode_from decoder_init (utf8_bytes c ++ rest)
  = c :: utf8_decode_from decoder_init rest.
Proof.
  intros Hc. unfold utf8_bytes, scalar in *.
  destruct (Z.ltb_spec c 0x80) as [H1 | H1];
    [| destruct (Z.ltb_spec c 0x800) as [H2 | H2];
       [| destruct (Z.ltb_spec c 0x10000) as [H3 | H3]]];
    cbn [app]; rewrite decode_idle; unfold lead_byte.
  - decide_cmp. reflexivity.
  - decide_cmp. rewrite decode_continue by arith.
    cbn [Z.eqb Pos.eqb]. f_equal. arith.
  - destruct (Z.eq_dec (c / 4096) 0) as [H0 | H0];
      destruct (Z.eq_dec (c / 4096) 13) as [Hd | Hd]; try lia;
      decide_cmp;
      rewrite decode_continue by arith; cbn [Z.eqb Pos.eqb];
      rewrite decode_continue by arith; cbn [Z.eqb Pos.eqb Z.sub Z.add
        Z.opp Z.pos_sub Pos.pred_double];
      f_equal; arith.
  - destruct (Z.eq_dec (c / 262144) 0) as [H0 | H0];
      destruct (Z.eq_dec (c / 262144) 4) as [Hd | Hd]; try lia;
      decide_cmp;
      rewrite decode_continue by arith; cbn [Z.eqb Pos.eqb];
      rewrite decode_continue by arith; cbn [Z.eqb Pos.eqb Z.sub Z.add
        Z.opp Z.pos_sub Pos.pred_double];
      rewrite decode_continue by arith; cbn [Z.eqb Pos.eqb Z.sub Z.add
        Z.opp Z.pos_sub Pos.pred_double];
      f_equal; arith.
Qed.

Lemma utf8_decode_encode (cs : list Z) :
  Forall scalar cs -> utf8_decode (flat_map utf8_bytes cs) = cs.
Proof.
  unfold utf8_decode. induction 1 as [| c cs Hc _ IH]; [reflexivity |].
  cbn [flat_map]. rewrite utf8_decode_bytes by exact Hc. now rewrite IH.
Qed.

Lemma utf8_bytes_are_bytes (c : Z) : scalar c -> Forall is_byte (utf8_bytes c).
Proof.
  intros Hc. unfold utf8_bytes, scalar, is_byte in *.
  destruct (Z.ltb_spec c 0x80); [| destruct (Z.ltb_spec c 0x800);
                                    [| destruct (Z.ltb_spec c 0x10000)]];
    repeat constructor; arith.
Qed.

(** Induction over a string one character at a time, a character being
    one code unit or two. *)
Lemma string_ind2 (P : jsstring -> Prop) :
  P [] ->
  (forall u rest, P rest -> (forall l rest', rest = l :: rest' -> P rest') ->
                  P (u :: rest)) ->
  forall s, P s.
Proof.
  intros Hnil Hstep s.
  assert (H : P s /\ forall l rest', s = l :: rest' -> P rest').
  { induction s as [| u rest [IH1 IH2]].
    - split; [exact Hnil | discriminate].
    - split; [apply Hstep; assumption |].
      intros l rest' [= -> ->]. exact IH1. }
  exact (proj1 H).
Qed.

Lemma scalar_values_well_formed (s : jsstring) :
  well_formed s = true ->
  Forall scalar (scalar_values s)
  /\ flat_map code_units (scalar_values s) = s.
Proof.
  induction s as [| u rest IH1 IH2] using string_ind2; [now split |].
  cbn [well_formed scalar_values].
  intros H. apply andb_true_iff in H. destruct H as [Hrange H].
  apply andb_true_iff in Hrange. destruct Hrange as [Hlo Hhi].
  apply Z.leb_le in Hlo. apply Z.ltb_lt in Hhi.
  destruct (high_surrogate u) eqn:Hhigh.
  - destruct rest as [| l rest']; [discriminate |].
    apply andb_true_iff in H. destruct H as [Hlow Hwf]. rewrite Hlow.
    destruct (IH2 l rest' eq_refl Hwf) as [Hsc Hcu].
    unfold high_surrogate in Hhigh. unfold low_surrogate in Hlow.
    apply andb_true_iff in Hhigh, Hlow.
    destruct Hhigh as [Hh1 Hh2]. destruct Hlow as [Hl1 Hl2].
    apply Z.leb_le in Hh1, Hh2, Hl1, Hl2.
    split.
    + constructor; [unfold scalar; lia | exact Hsc].
    + cbn [flat_map]. rewrite Hcu. unfold code_units.
      decide_cmp. cbn [app]. f_equal; [arith | f_equal; arith].
  - apply andb_true_iff in H. destruct H as [Hlow Hwf].
    apply negb_true_iff in Hlow. rewrite Hlow.
    destruct (IH1 Hwf) as [Hsc Hcu].
    unfold high_surrogate in Hhigh. unfold low_surrogate in Hlow.
    apply andb_false_iff in Hhigh, Hlow.
    assert (Hu : scalar u).
    { unfold scalar.
      destruct Hhigh as [Hh | Hh]; [apply Z.leb_gt in Hh; lia |].
      apply Z.leb_gt in Hh.
      destruct Hlow as [Hl | Hl]; apply Z.leb_gt in Hl; lia. }
    split.
    + constructor; assumption.
    + cbn [flat_map]. rewrite Hcu. unfold code_units.
      decide_cmp. reflexivity.
Qed.

(** What a well-formed string starts with after the conversion to scalar
    values: U+FEFF exactly when the string starts with it. *)
Lemma strip_bom_scalar_values (s : jsstring) :
  well_formed s = true ->
  strip_bom (scalar_values s)
  = match s with
    | u :: rest => if u =? 0xFEFF then scalar_values rest else scalar_values s
    | [] => []
    end.
Proof.
  destruct s as [| u rest]; [reflexivity |].
  cbn [well_formed scalar_values]. intros H.
  apply andb_true_iff in H. destruct H as [_ H].
  unfold high_surrogate, low_surrogate in *.
  destruct (Z.eqb_spec u 0xFEFF) as [-> | Hne].
  - reflexivity.
  - destruct ((0xD800 <=? u) && (u <=? 0xDBFF)) eqn:Hhigh.
    + destruct rest as [| l rest']; [discriminate |].
      apply andb_true_iff in H. destruct H as [Hlow _]. rewrite Hlow.
      apply andb_true_iff in Hhigh, Hlow.
      destruct Hhigh as [Hh1 Hh2]. destruct Hlow as [Hl1 Hl2].
      apply Z.leb_le in Hh1, Hh2, Hl1, Hl2.
      unfold strip_bom. decide_cmp. reflexivity.
    + apply andb_true_iff in H. destruct H as [Hlow _].
      apply negb_true_iff in Hlow. rewrite Hlow.
      unfold strip_bom. now rewrite (proj2 (Z.eqb_neq _ _) Hne).
Qed.

(** Decoding the encoding of a well-formed string gives the string back,
    less a leading U+FEFF. *)
Lemma text_round_trip (s : jsstring) :
  well_formed s = true ->
  ab2str (str2ab s)
  = match s with
    | u :: rest => if u =? 0xFEFF then rest else s
    | [] => []
    end.
Proof.
  intros Hwf. unfold ab2str, str2ab, TextDecoder_decode, TextEncoder_encode.
  destruct (scalar_values_well_formed s Hwf) as [Hsc Hcu].
  rewrite utf8_decode_encode by exact Hsc.
  rewrite strip_bom_scalar_values by exact Hwf.
  destruct s as [| u rest]; [reflexivity |].
  destruct (Z.eqb_spec u 0xFEFF) as [-> | Hne]; [| exact Hcu].
  cbn [well_formed] in Hwf. apply andb_true_iff in Hwf.
  destruct Hwf as [_ Hwf]. cbn in Hwf.
  exact (proj2 (scalar_values_well_formed rest Hwf)).
Qed.

(** The scalar values of any string are scalar values: what is not one
    has been replaced. *)
Lemma scalar_values_scalar (s : jsstring) :
  Forall is_code_unit s -> Forall scalar (scalar_values s).
Proof.
  unfold is_code_unit.
  induction s as [| u rest IH1 IH2] using string_ind2; [constructor |].
  intros H. inversion_clear H as [| ? ? Hu Hrest].
  assert (Hfffd : scalar 0xFFFD) by (unfold scalar; lia).
  cbn [scalar_values]. unfold high_surrogate, low_surrogate.
  destruct ((0xD800 <=? u) && (u <=? 0xDBFF)) eqn:Hhigh.
  - destruct rest as [| l rest']; [constructor; [exact Hfffd | constructor] |].
    destruct ((0xDC00 <=? l) && (l <=? 0xDFFF)) eqn:Hlow.
    + apply andb_true_iff in Hhigh, Hlow.
      destruct Hhigh as [Hh1 Hh2]. destruct Hlow as [Hl1 Hl2].
      apply Z.leb_le in Hh1, Hh2, Hl1, Hl2.
      constructor; [unfold scalar; lia |].
      apply (IH2 l rest' eq_refl). now inversion_clear Hrest.
    + constructor; [exact Hfffd | now apply IH1].
  - destruct ((0xDC00 <=? u) && (u <=? 0xDFFF)) eqn:Hlow.
    + constructor; [exact Hfffd | now apply IH1].
    + constructor; [| now apply IH1].
      apply andb_false_iff in Hhigh, Hlow. unfold scalar.
      destruct Hhigh as [Hh | Hh]; [apply Z.leb_gt in Hh; lia |].
      apply Z.leb_gt in Hh.
      destruct Hlow as [Hl | Hl]; apply Z.leb_gt in Hl; lia.
Qed.

(** What encoding and then decoding does to any string: unpaired
    surrogates become U+FFFD, and a leading U+FEFF is dropped. *)
Lemma text_codec (s : jsstring) :
  Forall is_code_unit s ->
  ab2str (str2ab s) = flat_map code_units (strip_bom (scalar_values s)).
Proof.
  intros Hs. unfold ab2str, str2ab, TextDecoder_decode, TextEncoder_encode.
  now rewrite utf8_decode_encode by now apply scalar_values_scalar.
Qed.

Lemma well_formed_code_units (s : jsstring) :
  well_formed s = true -> Forall is_code_unit s.
Proof.
  unfold is_code_unit.
  induction s as [| u rest IH1 IH2] using string_ind2; [constructor |].
  cbn [well_formed]. intros H.
  apply andb_true_iff in H. destruct H as [Hrange H].
  apply andb_true_iff in Hrange. destruct Hrange as [Hlo Hhi].
  apply Z.leb_le in Hlo. apply Z.ltb_lt in Hhi.
  constructor; [lia |].
  destruct (high_surrogate u).
  - destruct rest as [| l rest']; [discriminate |].
    apply andb_true_iff in H. destruct H as [Hlow Hwf].
    unfold low_surrogate in Hlow. apply andb_true_iff in Hlow.
    destruct Hlow as [Hl1 Hl2]. apply Z.leb_le in Hl1, Hl2.
    constructor; [lia | now apply (IH2 l rest' eq_refl)].
  - apply andb_true_iff in H. destruct H as [_ Hwf]. now apply IH1.
Qed.

Lemma str2ab_bytes (s : jsstring) :
  Forall is_code_unit s -> Forall is_byte (str2ab s).
Proof.
  intros Hs. pose proof (scalar_values_scalar s Hs) as Hsc.
  unfold str2ab, TextEncoder_encode.
  induction Hsc as [| c cs Hc _ IH]; [constructor |].
  cbn [flat_map]. apply Forall_app. split; [| exact IH].
  now apply utf8_bytes_are_bytes.
Qed.

(** *** Base64 *)

Lemma list_ind3 {A} (P : list A -> Prop) :
  P [] -> (forall a, P [a]) -> (forall a b, P [a; b]) ->
  (forall a b c l, P l -> P (a :: b :: c :: l)) ->
  forall l, P l.
Proof.
  intros H0 H1 H2 H3 l.
  assert (H : P l /\ (forall a, P (a :: l)) /\ forall a b, P (a :: b :: l)).
  { induction l as [| x l (IH0 & IH1 & IH2)].
    - auto.
    - split; [apply IH1 |]. split; [intros a; apply IH2 |].
      intros a b. apply H3. exact IH0. }
  exact (proj1 H).
Qed.

Lemma base64_encode_split (data : bytes) :
  base64_encode data
  = map base64_char (sextets data) ++ repeat 61 (padding data).
Proof.
  induction data as [| a | a b | a b c rest IH] using list_ind3;
    try reflexivity.
  cbn [base64_encode sextets padding map app]. now rewrite IH.
Qed.

Lemma sextets_range (data : bytes) :
  Forall is_byte data -> Forall sextet (sextets data).
Proof.
  unfold is_byte, sextet.
  induction data as [| a | a b | a b c rest IH] using list_ind3; intros H;
    cbn [sextets].
  - constructor.
  - inversion_clear H as [| ? ? Ha _]. repeat constructor; arith.
  - inversion_clear H as [| ? ? Ha H']. inversion_clear H' as [| ? ? Hb _].
    repeat constructor; arith.
  - inversion_clear H as [| ? ? Ha H']. inversion_clear H' as [| ? ? Hb H''].
    inversion_clear H'' as [| ? ? Hc Hrest].
    repeat (constructor; [arith |]). now apply IH.
Qed.

Lemma base64_bytes_sextets (data : bytes) :
  Forall is_byte data -> base64_bytes (sextets data) = data.
Proof.
  unfold is_byte.
  induction data as [| a | a b | a b c rest IH] using list_ind3; intros H;
    cbn [sextets base64_bytes].
  - reflexivity.
  - inversion_clear H as [| ? ? Ha _]. f_equal. arith.
  - inversion_clear H as [| ? ? Ha H']. inversion_clear H' as [| ? ? Hb _].
    f_equal; [arith | f_equal; arith].
  - inversion_clear H as [| ? ? Ha H']. inversion_clear H' as [| ? ? Hb H''].
    inversion_clear H'' as [| ? ? Hc Hrest].
    rewrite IH by exact Hrest.
    f_equal; [arith | f_equal; [arith | f_equal; arith]].
Qed.

(** The length of the values is never 1 modulo 4, and values and padding
    together fill whole groups of four. *)
Lemma sextets_length (data : bytes) :
  exists k r : nat,
    length (sextets data) = (4 * k + r)%nat
    /\ (r = 0 \/ r = 2 \/ r = 3)%nat
    /\ (r + padding data = 0 \/ r + padding data = 4)%nat.
Proof.
  induction data as [| a | a b | a b c rest IH] using list_ind3.
  - exists 0%nat, 0%nat. cbn. lia.
  - exists 0%nat, 2%nat. cbn. lia.
  - exists 0%nat, 3%nat. cbn. lia.
  - destruct IH as (k & r & Hlen & Hr & Hp).
    exists (S k), r. cbn [sextets padding length]. lia.
Qed.

Lemma base64_char_spec (v : Z) :
  sextet v ->
  base64_value (base64_char v) = Some v
  /\ ascii_whitespace (base64_char v) = false
  /\ base64_char v <> 61.
Proof.
  unfold sextet, base64_char, base64_value, ascii_whitespace. intros Hv.
  destruct (Z.ltb_spec v 26);
    [| destruct (Z.ltb_spec v 52);
       [| destruct (Z.ltb_spec v 62); [| destruct (Z.eqb_spec v 62)]]];
    decide_cmp; (split; [f_equal; lia | split; [reflexivity | lia]]).
Qed.

Lemma base64_values_chars (vs : list Z) :
  Forall sextet vs -> base64_values (map base64_char vs) = Some vs.
Proof.
  induction 1 as [| v vs Hv _ IH]; [reflexivity |].
  cbn [map base64_values].
  now rewrite (proj1 (base64_char_spec v Hv)), IH.
Qed.

Lemma strip_equals_body (body : jsstring) :
  Forall (fun c => c <> 61) body -> strip_equals body = body.
Proof.
  intros H. unfold strip_equals.
  destruct (Z.eqb_spec (List.last body 0) 61) as [Heq | _]; [| reflexivity].
  exfalso. destruct body as [| c body] using rev_ind.
  - cbn in Heq. lia.
  - rewrite List.last_last in Heq. apply Forall_app in H.
    destruct H as [_ H]. inversion_clear H. contradiction.
Qed.

Lemma strip_equals_padded (body : jsstring) :
  strip_equals (body ++ [61]) = body.
Proof.
  unfold strip_equals. rewrite List.last_last, List.removelast_last.
  reflexivity.
Qed.

Lemma strip_padding (body : jsstring) (n : nat) :
  Forall (fun c => c <> 61) body -> (n <= 2)%nat ->
  strip_equals (strip_equals (body ++ repeat 61 n)) = body.
Proof.
  intros Hbody Hn. destruct n as [| [| [| n]]]; [| | | lia]; cbn [repeat].
  - rewrite app_nil_r. now rewrite !(strip_equals_body body Hbody).
  - rewrite strip_equals_padded. now apply strip_equals_body.
  - change [61; 61] with ([61] ++ [61]). rewrite app_assoc.
    now rewrite !strip_equals_padded.
Qed.

Lemma padding_le (data : bytes) : (padding data <= 2)%nat.
Proof.
  induction data as [| a | a b | a b c rest IH] using list_ind3; cbn; lia.
Qed.

Lemma atob_base64_encode (data : bytes) :
  Forall is_byte data -> atob (base64_encode data) = Some data.
Proof.
  intros Hbytes. pose proof (sextets_range data Hbytes) as Hsx.
  assert (Hchars : Forall (fun c => ascii_whitespace c = false /\ c <> 61)
                          (map base64_char (sextets data))).
  { apply Forall_map. eapply Forall_impl; [exact Hsx |].
    intros v Hv. simpl. now destruct (base64_char_spec v Hv) as (_ & ? & ?). }
  unfold atob. rewrite base64_encode_split.
  set (body := map base64_char (sextets data)) in *.
  assert (Hfilter : List.filter (fun c => negb (ascii_whitespace c))
                      (body ++ repeat 61 (padding data))
                    = body ++ repeat 61 (padding data)).
  { apply forallb_filter_id. apply forallb_forall. intros c Hin.
    apply in_app_or in Hin. destruct Hin as [Hin | Hin].
    - rewrite Forall_forall in Hchars. apply list_elem_of_In in Hin.
      now rewrite (proj1 (Hchars c Hin)).
    - apply repeat_spec in Hin. now subst c. }
  rewrite Hfilter. cbv zeta.
  destruct (sextets_length data) as (k & r & Hlen & Hr & Hp).
  assert (Hbody : length body = (4 * k + r)%nat)
    by (unfold body; now rewrite length_map).
  rewrite length_app, repeat_length, Hbody.
  replace (Z.of_nat (4 * k + r + padding data) mod 4 =? 0) with true
    by (symmetry; apply Z.eqb_eq; arith).
  rewrite strip_padding.
  - rewrite Hbody.
    replace (Z.of_nat (4 * k + r) mod 4 =? 1) with false
      by (symmetry; apply Z.eqb_neq; arith).
    unfold body. rewrite base64_values_chars by exact Hsx.
    now rewrite base64_bytes_sextets.
  - eapply Forall_impl; [exact Hchars |]. intros c Hc. exact (proj2 Hc).
  - apply padding_le.
Qed.

(** A buffer of bytes that fits in the arguments of one call survives
    [ab2base64] followed by [base642ab]. *)
Lemma base64_round_trip (headroom : nat) (buffer : bytes) :
  Forall is_byte buffer ->
  Z.of_nat (length buffer) <= argument_limit headroom ->
  ab2base64 headroom buffer = Some (base64_encode buffer)
  /\ base642ab (base64_encode buffer) = Some buffer.
Proof.
  intros Hbytes Hfits. split; [| now apply atob_base64_encode].
  unfold ab2base64, spread.
  destruct (Z.leb_spec (Z.of_nat (length buffer)) (argument_limit headroom))
    as [_ | Hlong]; [| lia].
  clear Hfits. unfold String_fromCharCode, btoa.
  assert (Hid : map (fun c => c mod 65536) buffer = buffer).
  { induction Hbytes as [| b bs Hb _ IH]; [reflexivity |].
    cbn [map]. rewrite IH. f_equal. unfold is_byte in Hb. arith. }
  rewrite Hid.
  assert (Hall : forallb (fun c => (0 <=? c) && (c <=? 255)) buffer = true).
  { apply forallb_forall. intros c Hin. rewrite Forall_forall in Hbytes.
    apply list_elem_of_In in Hin. specialize (Hbytes c Hin).
    unfold is_byte in Hbytes. decide_cmp. reflexivity. }
  now rewrite Hall.
Qed.

(** A longer buffer makes [ab2base64] throw. *)
Lemma ab2base64_too_long (headroom : nat) (buffer : bytes) :
  argument_limit headroom < Z.of_nat (length buffer) ->
  ab2base64 headroom buffer = None.
Proof.
  intros Hlong. unfold ab2base64, spread.
  destruct (Z.leb_spec (Z.of_nat (length buffer)) (argument_limit headroom))
    as [Hfits | _]; [lia | reflexivity].
Qed.

(** Up to 65535 bytes fit in every engine. *)
Lemma short_buffer_fits (headroom : nat) (buffer : bytes) :
  Z.of_nat (length buffer) <= 65535 ->
  Z.of_nat (length buffer) <= argument_limit headroom.
Proof. unfold argument_limit. lia. Qed.

Lemma elements_new_Uint8Array (buffer : bytes) :
  elements (new_Uint8Array buffer) = buffer.
Proof.
  unfold elements, new_Uint8Array.
  cbn [Codec.buffer byteOffset byteLength skipn]. apply firstn_all.
Qed.

End CodecProperties.

(** ** Encryption round trip and key management *)

Section EncryptionProperties.
Import Codec Encryption.
Local Open Scope Z_scope.

Variable headroom : nat.
Variable CryptoKey : Type.
Variable PBKDF2 : bytes -> bytes -> Z -> Z -> CryptoKey.
Variable AES_GCM_encrypt : CryptoKey -> bytes -> bytes -> bytes.
Variable AES_GCM_decrypt : CryptoKey -> bytes -> bytes -> option bytes.

(** The length of the authentication tag, in bytes (16 in Web Crypto
    unless the call asks otherwise). *)
Variable tag_length : nat.

(** What the module relies on from AES-GCM: a ciphertext is a sequence of
    bytes, as long as the plaintext and the tag together, and decrypting it
    under the key and IV that made it gives the plaintext back. *)
Hypothesis AES_GCM_bytes : forall key iv data,
  Forall is_byte data -> Forall is_byte (AES_GCM_encrypt key iv data).
Hypothesis AES_GCM_length : forall key iv data,
  length (AES_GCM_encrypt key iv data) = (length data + tag_length)%nat.
Hypothesis AES_GCM_decrypt_encrypt : forall key iv data,
  Forall is_byte data ->
  AES_GCM_decrypt key iv (AES_GCM_encrypt key iv data) = Some data.

Local Abbreviation deriveKey := (deriveKey CryptoKey PBKDF2).
Local Abbreviation encryptData :=
  (encryptData headroom CryptoKey AES_GCM_encrypt).
Local Abbreviation decryptData := (decryptData CryptoKey AES_GCM_decrypt).

Lemma getRandomValues_bytes (n : nat) (e : entropy) :
  Forall is_byte (buffer (getRandomValues n e).1).
Proof.
  cbn [getRandomValues fst new_Uint8Array buffer].
  apply Forall_map, Forall_forall.
  intros i _. cbn. unfold is_byte. Z.div_mod_to_equations; lia.
Qed.

(** The arrays of a salt and of an IV fit in the arguments of a call. *)
Lemma getRandomValues_fits (n : nat) (e : entropy) :
  (n <= 16)%nat ->
  Z.of_nat (length (buffer (getRandomValues n e).1))
  <= argument_limit headroom.
Proof.
  intros Hn. cbn [getRandomValues fst new_Uint8Array buffer].
  rewrite length_map, length_seq. unfold argument_limit. lia.
Qed.


(** A plaintext whose ciphertext does not fit makes [encryptData]
    reject. *)
Lemma encryptData_too_long (M : jsstring) (key : CryptoKey) (e : entropy) :
  argument_limit headroom < Z.of_nat (length (str2ab M) + tag_length) ->
  (encryptData M key e).1 = None.
Proof.
  intros Hlong. unfold Encryption.encryptData.
  destruct (getRandomValues IV_LENGTH e) as [ivb e']. cbn [fst].
  rewrite ab2base64_too_long; [reflexivity |].
  rewrite AES_GCM_length. exact Hlong.
Qed.


End EncryptionProperties.

(** *** Salt storage *)

Section KeyManagerProperties.
Import Codec Encryption.
Local Open Scope Z_scope.

Variable headroom : nat.
Variable CryptoKey : Type.
Variable PBKDF2 : bytes -> bytes -> Z -> Z -> CryptoKey.

Local Abbreviation initializeForUser :=
  (initializeForUser headroom CryptoKey PBKDF2).
Local Abbreviation getKeyForUser := (getKeyForUser CryptoKey PBKDF2).

Lemma lit_inj (s1 s2 : string) : lit s1 = lit s2 -> s1 = s2.
Proof.
  unfold lit. intros H.
  assert (Hinj : forall a b : Ascii.ascii,
             Z.of_N (Ascii.N_of_ascii a) = Z.of_N (Ascii.N_of_ascii b) ->
             a = b).
  { intros a b Hab. apply N2Z.inj in Hab.
    rewrite <- (Ascii.ascii_N_embedding a), <- (Ascii.ascii_N_embedding b).
    now rewrite Hab. }
  rewrite <- (String.string_of_list_ascii_of_string s1).
  rewrite <- (String.string_of_list_ascii_of_string s2).
  f_equal. revert H.
  generalize (String.list_ascii_of_string s1) as l1.
  generalize (String.list_ascii_of_string s2) as l2.
  intros l2 l1. revert l2.
  induction l1 as [| a l1 IH]; intros [| b l2] H; try discriminate.
  - reflexivity.
  - cbn [map] in H. injection H as Hab Hrest.
    f_equal; [now apply Hinj | now apply IH].
Qed.

Lemma salt_key_inj (u1 u2 : Z) : salt_key u1 = salt_key u2 -> u1 = u2.
Proof.
  unfold salt_key, Number_toString. intros H.
  apply app_inv_head in H. apply lit_inj in H.
  now apply (inj pretty) in H.
Qed.

(** What [initializeForUser] does, whatever is stored: it draws sixteen
    bytes, stores their Base64 form under the user's key and returns the
    key that PBKDF2 makes of the password and those bytes. *)
Lemma initializeForUser_run (userId : Z) (password : jsstring)
    (ls : storage) (e : entropy) :
  initializeForUser userId password ls e
  = (Some (PBKDF2 (str2ab password) (map (fun i => e i mod 256) (seq 0 16))
             PBKDF2_ITERATIONS KEY_LENGTH,
           <[salt_key userId
             := base64_encode (map (fun i => e i mod 256) (seq 0 16))]> ls),
     fun i => e (16 + i)%nat).
Proof.
  unfold Encryption.initializeForUser, saveSalt, generateSalt.
  pose proof (getRandomValues_bytes SALT_LENGTH e) as Hbytes.
  pose proof (getRandomValues_fits headroom SALT_LENGTH e) as Hfits.
  unfold getRandomValues, SALT_LENGTH in *. cbn [fst] in Hbytes, Hfits.
  cbn [new_Uint8Array buffer] in *.
  rewrite (proj1 (base64_round_trip headroom _ Hbytes (Hfits (le_n 16)))).
  unfold deriveKey.
  rewrite (elements_new_Uint8Array (map (fun i => e i mod 256) (seq 0 16))).
  reflexivity.
Qed.

(** The key [getKeyForUser] derives from a stored item that decodes. *)
Lemma getKeyForUser_stored (userId : Z) (password : jsstring) (ls : storage)
    (item : jsstring) (salt : bytes) :
  ls !! salt_key userId = Some item ->
  item <> [] ->
  base642ab item = Some salt ->
  getKeyForUser userId password ls
  = Key CryptoKey (PBKDF2 (str2ab password) salt PBKDF2_ITERATIONS KEY_LENGTH).
Proof.
  intros Hitem Hne Hsalt. unfold Encryption.getKeyForUser, getSalt.
  unfold jsstring in *. rewrite Hitem. destruct item as [| c item]; [contradiction |].
  rewrite Hsalt. unfold deriveKey. now rewrite elements_new_Uint8Array.
Qed.

(** C10: when a salt is already stored for the user, so that
    [getKeyForUser] gives the key PBKDF2 makes of the password and that
    salt, [initializeForUser] still succeeds, without any sign of what was
    there. It draws sixteen fresh random bytes, puts their Base64 form in
    place of the stored item, and returns the key PBKDF2 makes of the
    password and the new bytes. From then on [getKeyForUser] gives, for
    every password, the key of the new bytes: it differs from the old key
    whenever PBKDF2 tells the two salts apart. Nothing of the old salt is
    left: the store after the call, and so every key that can be derived
    from it, is the same whatever item was stored for the user before. The
    items of other users are as before. *)
Theorem initializeForUser_overwrites (userId : Z) (password : jsstring)
    (ls : storage) (e : entropy) (old : jsstring) (old_salt : bytes) :
  ls !! salt_key userId = Some old ->
  old <> [] ->
  base642ab old = Some old_salt ->
  exists ls',
    getKeyForUser userId password ls
    = Key CryptoKey
        (PBKDF2 (str2ab password) old_salt PBKDF2_ITERATIONS KEY_LENGTH)
    /\ initializeForUser userId password ls e
       = (Some (PBKDF2 (str2ab password)
                  (map (fun i => e i mod 256) (seq 0 16))
                  PBKDF2_ITERATIONS KEY_LENGTH, ls'),
          fun i => e (16 + i)%nat)
    /\ ls' !! salt_key userId
       = Some (base64_encode (map (fun i => e i mod 256) (seq 0 16)))
    /\ (forall password',
          getKeyForUser userId password' ls'
          = Key CryptoKey
              (PBKDF2 (str2ab password')
                 (map (fun i => e i mod 256) (seq 0 16))
                 PBKDF2_ITERATIONS KEY_LENGTH))
    /\ (PBKDF2 (str2ab password) old_salt PBKDF2_ITERATIONS KEY_LENGTH
        <> PBKDF2 (str2ab password) (map (fun i => e i mod 256) (seq 0 16))
             PBKDF2_ITERATIONS KEY_LENGTH ->
        getKeyForUser userId password ls'
        <> getKeyForUser userId password ls)
    /\ (forall other_item,
          (initializeForUser userId password
             (<[salt_key userId := other_item]> ls) e).1
          = Some (PBKDF2 (str2ab password)
                    (map (fun i => e i mod 256) (seq 0 16))
                    PBKDF2_ITERATIONS KEY_LENGTH, ls'))
    /\ (forall other, other <> userId ->
                      ls' !! salt_key other = ls !! salt_key other).
Proof.
  intros Hold Hne Hsalt.
  set (fresh := map (fun i => e i mod 256) (seq 0 16)).
  assert (Hfresh : Forall is_byte fresh).
  { apply Forall_map, Forall_forall. intros i _. cbn. unfold is_byte.
    Z.div_mod_to_equations; lia. }
  assert (Hback : base642ab (base64_encode fresh) = Some fresh).
  { apply (base64_round_trip headroom); [exact Hfresh |].
    unfold fresh, argument_limit. rewrite length_map, length_seq. lia. }
  assert (Hitem : base64_encode fresh <> [])
    by (unfold fresh; cbn [seq map base64_encode]; discriminate).
  assert (Hnew : forall password',
             getKeyForUser userId password'
               (<[salt_key userId := base64_encode fresh]> ls)
             = Key CryptoKey
                 (PBKDF2 (str2ab password') fresh PBKDF2_ITERATIONS
                    KEY_LENGTH)).
  { intros password'.
    apply (getKeyForUser_stored userId password' _ (base64_encode fresh));
      [apply lookup_insert_eq | exact Hitem | exact Hback]. }
  exists (<[salt_key userId := base64_encode fresh]> ls).
  split; [exact (getKeyForUser_stored _ _ _ _ _ Hold Hne Hsalt) |].
  split; [apply initializeForUser_run |].
  split; [apply lookup_insert_eq |].
  split; [exact Hnew |].
  split; [| split].
  - intros Hdiffer.
    rewrite Hnew, (getKeyForUser_stored _ _ _ _ _ Hold Hne Hsalt).
    intros Heq. injection Heq as Heq. apply Hdiffer. now rewrite Heq.
  - intros other_item. rewrite initializeForUser_run. cbn [fst].
    now rewrite insert_insert_eq.
  - intros other Hother. apply lookup_insert_ne.
    intros Heq. apply salt_key_inj in Heq. congruence.
Qed.

End KeyManagerProperties.


(** ** Fetching a batch of transactions *)

Section HookProperties.
Import Codec UseTransactions.

Variable CryptoKey : Type.
Variable AES_GCM_decrypt : CryptoKey -> bytes -> bytes -> option bytes.
Variable JSON_value : Type.
Variable JSON_parse : jsstring -> option JSON_value.

Local Abbreviation decryptTransaction :=
  (Encryption.decryptTransaction CryptoKey AES_GCM_decrypt JSON_value
     JSON_parse).
Local Abbreviation decrypt_one :=
  (decrypt_one CryptoKey AES_GCM_decrypt JSON_value JSON_parse).
Local Abbreviation fetchTransactions :=
  (fetchTransactions CryptoKey AES_GCM_decrypt JSON_value JSON_parse).
Local Abbreviation state := (state JSON_value).
Local Abbreviation decrypts :=
  (decrypts CryptoKey AES_GCM_decrypt JSON_value JSON_parse).

Lemma Promise_all_decrypt_one (key : CryptoKey) (txs : list Transaction) :
  (forallb (decrypts key) txs = true ->
   exists items,
     Promise_all (map (decrypt_one key) txs) = Fulfilled items
     /\ map (d_id JSON_value) items = map id txs
     /\ map (d_date JSON_value) items = map date txs
     /\ Forall2 (fun item tx =>
                   decryptTransaction (encrypted_data tx) (iv tx) key
                   = Some (d_decryptedData JSON_value item)) items txs)
  /\ (forallb (decrypts key) txs = false ->
      Promise_all (map (decrypt_one key) txs) = Rejected (Some decrypt_failure)).
Proof.
  induction txs as [| tx txs [IHok IHfail]].
  - split; [| discriminate]. intros _. exists []. repeat split. constructor.
  - cbn [forallb map Promise_all].
    unfold UseTransactions.decrypts at 1 3.
    unfold UseTransactions.decrypt_one at 1 3.
    destruct (decryptTransaction (encrypted_data tx) (iv tx) key)
      as [data |] eqn:Hdec.
    + rewrite !andb_true_l. split.
      * intros Hall. destruct (IHok Hall) as (items & -> & Hid & Hdate & Hdata).
        eexists. split; [reflexivity |]. cbn [map d_id d_date].
        rewrite Hid, Hdate. repeat split. constructor; assumption.
      * intros Hsome. now rewrite (IHfail Hsome).
    + split; [discriminate | reflexivity].
Qed.

(** C2, amended: when every record of the batch decrypts, the hook stores
    all of them, in the order of the batch, and no error. When a record
    fails to decrypt, the fetch fails as a whole: the error is the fixed
    "Failed to decrypt transaction data", which names neither the record
    nor the cause, none of the batch's records is stored (the list on
    display stays what it was), and loading ends. *)
Theorem fetchTransactions_all_or_nothing (key : CryptoKey)
    (txs : list Transaction) (st : state) :
  (forallb (decrypts key) txs = true ->
   exists items,
     fetchTransactions (Some key) (Fulfilled txs) st
     = mkState JSON_value items false None
     /\ map (d_id JSON_value) items = map id txs
     /\ Forall2 (fun item tx =>
                   decryptTransaction (encrypted_data tx) (iv tx) key
                   = Some (d_decryptedData JSON_value item)) items txs)
  /\ (forall tx, In tx txs -> decrypts key tx = false ->
      fetchTransactions (Some key) (Fulfilled txs) st
      = mkState JSON_value (transactions JSON_value st) false
                (Some decrypt_failure)).
Proof.
  destruct (Promise_all_decrypt_one key txs) as [Hok Hfail]. split.
  - intros Hall. destruct (Hok Hall) as (items & Hrun & Hid & _ & Hdata).
    exists items. unfold UseTransactions.fetchTransactions.
    rewrite Hrun. repeat split; assumption.
  - intros tx Hin Htx.
    assert (Hsome : forallb (decrypts key) txs = false).
    { destruct (forallb (decrypts key) txs) eqn:Hall; [| reflexivity].
      rewrite forallb_forall in Hall. rewrite (Hall tx Hin) in Htx.
      discriminate. }
    unfold UseTransactions.fetchTransactions. rewrite (Hfail Hsome).
    reflexivity.
Qed.

End HookProperties.

(** ** The laws of AES-GCM hold of the small cipher *)

Section ToyCryptoProperties.
Import Codec.
Local Open Scope Z_scope.

Lemma toy_bytes (key : ToyCrypto.CryptoKey) (iv data : bytes) :
  Forall is_byte data -> Forall is_byte (ToyCrypto.AES_GCM_encrypt key iv data).
Proof.
  intros H. unfold ToyCrypto.AES_GCM_encrypt. apply Forall_app.
  split; [exact H |]. constructor; [| constructor].
  unfold ToyCrypto.checksum, is_byte. Z.div_mod_to_equations; lia.
Qed.

Lemma toy_decrypt_encrypt (key : ToyCrypto.CryptoKey) (iv data : bytes) :
  Forall is_byte data ->
  ToyCrypto.AES_GCM_decrypt key iv (ToyCrypto.AES_GCM_encrypt key iv data)
  = Some data.
Proof.
  intros _. unfold ToyCrypto.AES_GCM_decrypt, ToyCrypto.AES_GCM_encrypt.
  rewrite List.removelast_last, List.last_last, Z.eqb_refl.
  rewrite length_app, Nat.add_comm. reflexivity.
Qed.

Lemma toy_length (key : ToyCrypto.CryptoKey) (iv data : bytes) :
  length (ToyCrypto.AES_GCM_encrypt key iv data) = (length data + 1)%nat.
Proof. unfold ToyCrypto.AES_GCM_encrypt. apply length_app. Qed.

End ToyCryptoProperties.


(** ** Numbers that are not numbers

    A NaN operand makes every arithmetic result NaN and every comparison
    false. *)

Section NaNProperties.
Import JS.
Local Open Scope float_scope.

Lemma Prim2SF_nan : Prim2SF nan = S754_nan.
Proof. reflexivity. Qed.

Lemma nan_of_SF (x : float) : Prim2SF x = S754_nan -> x = nan.
Proof. intros H. apply Prim2SF_inj. rewrite H. reflexivity. Qed.

Lemma add_nan_r (x : float) : x + nan = nan.
Proof.
  apply nan_of_SF. rewrite FloatAxioms.add_spec, Prim2SF_nan.
  destruct (Prim2SF x) as [| | |[] ? ?]; try destruct s; reflexivity.
Qed.

Lemma add_nan_l (x : float) : nan + x = nan.
Proof. apply nan_of_SF. rewrite FloatAxioms.add_spec, Prim2SF_nan. reflexivity. Qed.

Lemma sub_nan_r (x : float) : x - nan = nan.
Proof.
  apply nan_of_SF. rewrite FloatAxioms.sub_spec, Prim2SF_nan.
  destruct (Prim2SF x) as [| | |[] ? ?]; try destruct s; reflexivity.
Qed.

Lemma sub_nan_l (x : float) : nan - x = nan.
Proof. apply nan_of_SF. rewrite FloatAxioms.sub_spec, Prim2SF_nan. reflexivity. Qed.

Lemma mul_nan_l (x : float) : nan * x = nan.
Proof. apply nan_of_SF. rewrite FloatAxioms.mul_spec, Prim2SF_nan. reflexivity. Qed.

Lemma div_nan_l (x : float) : nan / x = nan.
Proof. apply nan_of_SF. rewrite FloatAxioms.div_spec, Prim2SF_nan. reflexivity. Qed.

Lemma div_nan_r (x : float) : x / nan = nan.
Proof.
  apply nan_of_SF. rewrite FloatAxioms.div_spec, Prim2SF_nan.
  destruct (Prim2SF x) as [| | |[] ? ?]; try destruct s; reflexivity.
Qed.

Lemma gt_nan_l (x : number) : gt nan x = false.
Proof.
  unfold gt. rewrite FloatAxioms.ltb_spec, Prim2SF_nan.
  unfold SFltb, SFcompare.
  destruct (Prim2SF x) as [| | |[] ? ?]; try destruct s; reflexivity.
Qed.

Lemma gt_nan_r (x : number) : gt x nan = false.
Proof. unfold gt. rewrite FloatAxioms.ltb_spec, Prim2SF_nan. reflexivity. Qed.

Lemma strict_eq_nan_l (x : number) : strict_eq nan x = false.
Proof.
  unfold strict_eq. rewrite FloatAxioms.eqb_spec, Prim2SF_nan. reflexivity.
Qed.

End NaNProperties.

(** ** The percentile of a list *)

Section PercentileProperties.
Import JS AnomalyDetector.
Local Open Scope float_scope.

Lemma sort_insert_In (v x : number) (ys : list number) :
  In v (sort_insert x ys) <-> v = x \/ In v ys.
Proof.
  induction ys as [| y ys IH]; cbn [sort_insert].
  - cbn. intuition.
  - destruct (lt (x - y) 0); cbn [In]; [intuition |].
    rewrite IH. intuition.
Qed.

Lemma sort_numeric_In (v : number) (xs : list number) :
  In v (sort_numeric xs) <-> In v xs.
Proof.
  unfold sort_numeric.
  assert (H : forall acc,
             In v (fold_left (fun acc x => sort_insert x acc) xs acc)
             <-> In v acc \/ In v xs).
  { induction xs as [| x xs IH]; intros acc; cbn [fold_left].
    - cbn. intuition.
    - rewrite IH, sort_insert_In. cbn [In]. intuition. }
  rewrite H. cbn. intuition.
Qed.

Lemma sort_numeric_length (xs : list number) :
  length (sort_numeric xs) = length xs.
Proof.
  unfold sort_numeric.
  assert (Hins : forall x ys, length (sort_insert x ys) = S (length ys)).
  { intros x ys. induction ys as [| y ys IH]; [reflexivity |].
    cbn [sort_insert]. destruct (lt (x - y) 0); cbn [length]; congruence. }
  assert (H : forall acc,
             length (fold_left (fun acc x => sort_insert x acc) xs acc)
             = (length acc + length xs)%nat).
  { induction xs as [| x xs IH]; intros acc; cbn [fold_left length].
    - lia.
    - rewrite IH, Hins. lia. }
  rewrite H. reflexivity.
Qed.

(** X12: [percentile] never interpolates. Whatever the list and whatever
    the requested percentile, a number it returns is 0 for the empty list
    and an element of the list otherwise; the same holds of the percentile
    of the sorted copy that [analyzeTransaction] takes, which is then one
    of the historical amounts. *)
Theorem percentile_is_an_element (values : list number) (p v : number) :
  percentile values p = Some v \/ percentile (sort_numeric values) p = Some v ->
  (values = [] /\ v = 0) \/ In v values.
Proof.
  assert (H : forall xs, percentile xs p = Some v ->
                         (xs = [] /\ v = 0) \/ In v xs).
  { intros xs. unfold percentile. destruct xs as [| x xs].
    - intros [= <-]. left. split; reflexivity.
    - change (length (x :: xs) =? 0)%nat with false. cbv iota zeta.
      unfold array_get. destruct (to_integer _) as [i |]; [| discriminate].
      destruct (i <? _)%Z; [| discriminate].
      intros Hget. right.
      apply list_elem_of_In. eapply list_elem_of_lookup_2, Hget. }
  intros [Hp | Hp]; [apply H, Hp |].
  destruct (H _ Hp) as [[Hnil ->] | Hin].
  - left. split; [| reflexivity].
    apply (f_equal (@length _)) in Hnil.
    rewrite sort_numeric_length in Hnil.
    destruct values; [reflexivity | discriminate Hnil].
  - right. apply sort_numeric_In, Hin.
Qed.

End PercentileProperties.

(** ** The rules of the detector on any input *)

Section RuleProperties.
Import JS Database AnomalyDetector.
Local Open Scope float_scope.

Variable toFixed : number -> nat -> string.
Variable Number_toString : number -> string.

Local Abbreviation detectAmountAnomaly := (detectAmountAnomaly toFixed).
Local Abbreviation detectLargeTransaction := (detectLargeTransaction toFixed).
Local Abbreviation detectFrequencyAnomaly :=
  (detectFrequencyAnomaly toFixed Number_toString).
Local Abbreviation detectSpendingSpike := (detectSpendingSpike toFixed).
Local Abbreviation analyzeTransaction := (analyzeTransaction toFixed).

Lemma fold_add_nan_acc (l : list number) :
  fold_left (fun sum val => sum + val) l nan = nan.
Proof.
  induction l as [| x l IH]; [reflexivity |].
  cbn [fold_left]. rewrite add_nan_l. exact IH.
Qed.

Lemma fold_add_nan (l : list number) (acc : number) :
  In nan l -> fold_left (fun sum val => sum + val) l acc = nan.
Proof.
  revert acc. induction l as [| x l IH]; intros acc Hin; [destruct Hin |].
  cbn [fold_left]. destruct Hin as [-> | Hin].
  - rewrite add_nan_r. apply fold_add_nan_acc.
  - apply IH, Hin.
Qed.

Lemma mean_nan (l : list number) : In nan l -> mean l = nan.
Proof.
  intros Hin. unfold mean.
  destruct l as [| x l]; [destruct Hin |].
  change (length (x :: l) =? 0)%nat with false. cbv iota.
  rewrite (fold_add_nan _ _ Hin). apply div_nan_l.
Qed.

Lemma standardDeviation_nan (l : list number) :
  In nan l -> standardDeviation l = nan.
Proof.
  intros Hin. unfold standardDeviation.
  destruct l as [| x l]; [destruct Hin |].
  change (length (x :: l) =? 0)%nat with false. cbv iota zeta.
  rewrite (mean_nan _ Hin).
  rewrite mean_nan; [reflexivity |].
  apply in_map_iff. exists nan. split; [| exact Hin].
  unfold Math_pow2. rewrite sub_nan_r. apply mul_nan_l.
Qed.

(** The z-score of a NaN is NaN, or 0 when the deviation is 0. *)
Lemma zScore_nan_value (m s : number) :
  zScore nan m s = nan \/ zScore nan m s = 0.
Proof.
  unfold zScore. destruct (strict_eq s 0); [right; reflexivity | left].
  rewrite sub_nan_l. apply div_nan_l.
Qed.

Lemma zScore_nan_stats (v : number) : zScore v nan nan = nan.
Proof.
  unfold zScore. rewrite strict_eq_nan_l, sub_nan_r. apply div_nan_l.
Qed.

Lemma amount_rule_nan (hist : list number) (threshold : number) :
  gt 0 threshold = false ->
  isAnomaly (detectAmountAnomaly nan hist threshold) = false.
Proof.
  intros Hthreshold. unfold AnomalyDetector.detectAmountAnomaly.
  destruct (length hist <? 5)%nat; [reflexivity |]. cbv zeta.
  destruct (zScore_nan_value (mean hist) (standardDeviation hist)) as [-> | ->].
  - change (Math_abs nan) with nan. rewrite gt_nan_l. reflexivity.
  - change (Math_abs 0) with 0. rewrite Hthreshold. reflexivity.
Qed.

Lemma amount_rule_nan_history (amount : number) (hist : list number)
    (threshold : number) :
  In nan hist -> isAnomaly (detectAmountAnomaly amount hist threshold) = false.
Proof.
  intros Hin. unfold AnomalyDetector.detectAmountAnomaly.
  destruct (length hist <? 5)%nat; [reflexivity |]. cbv zeta.
  rewrite (mean_nan _ Hin), (standardDeviation_nan _ Hin), zScore_nan_stats.
  change (Math_abs nan) with nan. rewrite gt_nan_l. reflexivity.
Qed.

Lemma large_rule_nan (percentile90 : number) :
  isAnomaly (detectLargeTransaction nan percentile90) = false.
Proof.
  unfold AnomalyDetector.detectLargeTransaction. rewrite gt_nan_l. reflexivity.
Qed.

Lemma amount_rule_type (amount : number) (hist : list number)
    (threshold : number) :
  isAnomaly (detectAmountAnomaly amount hist threshold) = true ->
  type (detectAmountAnomaly amount hist threshold) = "unusual_amount".
Proof.
  unfold AnomalyDetector.detectAmountAnomaly.
  destruct (length hist <? 5)%nat; [discriminate |]. cbv zeta.
  destruct (gt _ threshold); [reflexivity | discriminate].
Qed.

Lemma amount_rule_small_history (amount : number) (hist : list number)
    (threshold : number) :
  (length hist < 5)%nat ->
  isAnomaly (detectAmountAnomaly amount hist threshold) = false.
Proof.
  intros Hlen. unfold AnomalyDetector.detectAmountAnomaly.
  destruct (Nat.ltb_spec (length hist) 5) as [_ | Hge]; [reflexivity | lia].
Qed.

Lemma large_rule_type (amount percentile90 : number) :
  isAnomaly (detectLargeTransaction amount percentile90) = true ->
  type (detectLargeTransaction amount percentile90) = "large_transaction"
  /\ severity (detectLargeTransaction amount percentile90) <> low.
Proof.
  unfold AnomalyDetector.detectLargeTransaction.
  destruct (gt amount (percentile90 * 2)); [| discriminate].
  intros _. split; [reflexivity |]. cbn [severity].
  destruct (gt amount (percentile90 * 5)); discriminate.
Qed.

(** X8: with fewer than five historical transactions [analyzeTransaction]
    reports nothing, whatever the new transaction is: the amount rule and
    the category rule need five amounts, the large-transaction rule
    ten. *)
Theorem analyzeTransaction_needs_five
    (newTransaction : DecryptedTransaction)
    (historicalTransactions : list DecryptedTransaction) :
  (length historicalTransactions < 5)%nat ->
  analyzeTransaction newTransaction historicalTransactions = [].
Proof.
  intros Hlen. unfold AnomalyDetector.analyzeTransaction. cbv zeta.
  rewrite amount_rule_small_history by (rewrite length_map; exact Hlen).
  rewrite length_map.
  destruct (Nat.leb_spec 10 (length historicalTransactions)) as [Hge | _];
    [lia |].
  destruct (truthy (category newTransaction)); [| reflexivity].
  match goal with
  | |- context [(5 <=? length ?l)%nat] =>
      destruct (Nat.leb_spec 5 (length l)) as [Hge | _]; [| reflexivity]
  end.
  pose proof (filter_length_le
    (fun t => category_eq (category t) (category newTransaction))
    historicalTransactions) as Hfilter.
  lia.
Qed.

Lemma findings_shape (l1 l2 l3 : list AnomalyResult) :
  (l1 = [] \/ exists r, l1 = [r] /\ isAnomaly r = true
                        /\ type r = "unusual_amount") ->
  (l2 = [] \/ exists r, l2 = [r] /\ isAnomaly r = true
                        /\ type r = "large_transaction"
                        /\ severity r <> low) ->
  (l3 = [] \/ exists r, l3 = [r] /\ isAnomaly r = true
                        /\ type r = "unusual_category_amount") ->
  sublist (map type (l1 ++ l2 ++ l3))
    ["unusual_amount"; "large_transaction"; "unusual_category_amount"]
  /\ Forall (fun r => isAnomaly r = true) (l1 ++ l2 ++ l3)
  /\ Forall (fun r => type r = "large_transaction" -> severity r <> low)
       (l1 ++ l2 ++ l3).
Proof.
  intros [-> | (r1 & -> & Ha1 & Ht1)] [-> | (r2 & -> & Ha2 & Ht2 & Hs2)]
         [-> | (r3 & -> & Ha3 & Ht3)];
    repeat match goal with r : AnomalyResult |- _ => destruct r end;
    cbn [isAnomaly type severity] in *; subst;
    cbn [app map type isAnomaly severity];
    (split; [| split]);
    repeat first
      [ apply sublist_nil | apply sublist_skip | apply sublist_cons ];
    repeat (apply Forall_cons; split); try apply Forall_nil;
    cbn [isAnomaly type severity];
    try reflexivity; try (intros _; assumption); discriminate.
Qed.

(** X9: every result [analyzeTransaction] returns is an anomaly
    ([isAnomaly] is true; the results that say "normal" or
    "insufficient_data" are dropped). There are at most three, at most one
    of each type, in the fixed order unusual_amount, large_transaction,
    unusual_category_amount, and a large_transaction result is never of
    low severity. *)
Theorem analyzeTransaction_findings
    (newTransaction : DecryptedTransaction)
    (historicalTransactions : list DecryptedTransaction) :
  sublist
    (map type (analyzeTransaction newTransaction historicalTransactions))
    ["unusual_amount"; "large_transaction"; "unusual_category_amount"]
  /\ Forall (fun r => isAnomaly r = true)
       (analyzeTransaction newTransaction historicalTransactions)
  /\ Forall (fun r => type r = "large_transaction" -> severity r <> low)
       (analyzeTransaction newTransaction historicalTransactions).
Proof.
  unfold AnomalyDetector.analyzeTransaction. cbv zeta.
  apply findings_shape.
  - destruct (isAnomaly (detectAmountAnomaly _ _ _)) eqn:E; [right | left];
      [| reflexivity].
    eexists. split; [reflexivity |]. split; [exact E |].
    apply amount_rule_type, E.
  - destruct (10 <=? _)%nat; [| left; reflexivity].
    destruct (isAnomaly (detectLargeTransaction _ _)) eqn:E; [right | left];
      [| reflexivity].
    eexists. split; [reflexivity |]. split; [exact E |].
    apply large_rule_type, E.
  - destruct (truthy _); [| left; reflexivity].
    destruct (5 <=? _)%nat; [| left; reflexivity].
    destruct (isAnomaly (detectAmountAnomaly _ _ _)) eqn:E; [right | left];
      [| reflexivity].
    eexists. split; [reflexivity |]. split; reflexivity.
Qed.

(** X10: no rule flags a NaN. An amount that is NaN is not flagged by the
    amount rule (at its default threshold) nor by the large-transaction
    rule, and [analyzeTransaction] returns nothing for it, whatever the
    history; a NaN anywhere in the historical amounts silences the amount
    rule for every candidate and every threshold; a NaN 90th percentile
    silences the large-transaction rule; the frequency rule flags neither
    a NaN count nor a count against a NaN average; the spending-spike rule
    flags neither a NaN total nor a total against a history that holds a
    NaN. *)
Theorem nan_is_never_flagged :
  (forall hist, isAnomaly (detectAmountAnomaly nan hist default_threshold)
                = false)
  /\ (forall amount before after threshold,
        isAnomaly (detectAmountAnomaly amount (before ++ nan :: after)
                     threshold) = false)
  /\ (forall percentile90,
        isAnomaly (detectLargeTransaction nan percentile90) = false)
  /\ (forall amount, isAnomaly (detectLargeTransaction amount nan) = false)
  /\ (forall category historicalAverage threshold,
        isAnomaly (detectFrequencyAnomaly category nan historicalAverage
                     threshold) = false)
  /\ (forall category recentCount threshold,
        isAnomaly (detectFrequencyAnomaly category recentCount nan
                     threshold) = false)
  /\ (forall historicalPeriodAverages threshold,
        isAnomaly (detectSpendingSpike nan historicalPeriodAverages
                     threshold) = false)
  /\ (forall periodTotal before after threshold,
        isAnomaly (detectSpendingSpike periodTotal (before ++ nan :: after)
                     threshold) = false)
  /\ (forall id category date historicalTransactions,
        analyzeTransaction (mkTx id nan category date) historicalTransactions
        = []).
Proof.
  repeat split.
  - intros hist. apply amount_rule_nan. reflexivity.
  - intros amount before after threshold. apply amount_rule_nan_history.
    apply in_elt.
  - apply large_rule_nan.
  - intros amount. unfold AnomalyDetector.detectLargeTransaction.
    rewrite mul_nan_l, gt_nan_r. reflexivity.
  - intros category historicalAverage threshold.
    unfold AnomalyDetector.detectFrequencyAnomaly.
    destruct (strict_eq historicalAverage 0); [reflexivity |]. cbv zeta.
    rewrite div_nan_l, gt_nan_l. reflexivity.
  - intros category recentCount threshold.
    unfold AnomalyDetector.detectFrequencyAnomaly.
    rewrite strict_eq_nan_l. cbv zeta.
    rewrite div_nan_r, gt_nan_l. reflexivity.
  - intros hs threshold. unfold AnomalyDetector.detectSpendingSpike.
    destruct (length hs <? 3)%nat; [reflexivity |]. cbv zeta.
    rewrite gt_nan_l. reflexivity.
  - intros periodTotal before after threshold.
    unfold AnomalyDetector.detectSpendingSpike.
    destruct (length _ <? 3)%nat; [reflexivity |]. cbv zeta.
    rewrite (mean_nan (before ++ nan :: after)) by apply in_elt.
    rewrite mul_nan_l, gt_nan_r. reflexivity.
  - intros id category date hist.
    unfold AnomalyDetector.analyzeTransaction. cbv zeta. cbn [amount].
    rewrite amount_rule_nan by reflexivity.
    rewrite large_rule_nan.
    rewrite amount_rule_nan by reflexivity.
    destruct (10 <=? _)%nat; destruct (truthy _); try reflexivity;
      destruct (5 <=? _)%nat; reflexivity.
Qed.

End RuleProperties.

(** ** The retrospective scan on a history that holds a NaN *)

Section ScanProperties.
Import JS Database AnomalyDetector.
Local Open Scope float_scope.

Variable toFixed : number -> nat -> string.
Variable userId : Z.

Lemma forEach_scan_nan (transactions : list DecryptedTransaction) (d : db) :
  forEach (scan_one toFixed userId nan nan) transactions d = (Ok tt, d).
Proof.
  induction transactions as [| t ts IH]; [reflexivity |].
  cbn [forEach]. unfold bind, scan_one at 1. cbv zeta.
  rewrite zScore_nan_stats. change (Math_abs nan) with nan.
  rewrite gt_nan_l. unfold ret at 1. exact IH.
Qed.

(** X11: one transaction whose amount is NaN silences [batchAnalyze]: the
    global mean and deviation are NaN, no z-score exceeds the threshold,
    and the scan ends without a single Finding and without touching the
    database, however extreme the other amounts are. *)
Theorem batchAnalyze_silenced_by_nan
    (before after : list DecryptedTransaction)
    (id : Z) (category : option string) (date : string) (d : db) :
  batchAnalyze toFixed userId
    (before ++ mkTx id nan category date :: after) d
  = (Ok tt, d).
Proof.
  unfold batchAnalyze. destruct (length _ <? 10)%nat; [reflexivity |].
  cbv zeta.
  assert (Hin : In nan (map amount
                          (before ++ mkTx id nan category date :: after))).
  { rewrite map_app. cbn [map amount]. apply in_elt. }
  rewrite (mean_nan _ Hin), (standardDeviation_nan _ Hin).
  apply forEach_scan_nan.
Qed.



End ScanProperties.

(** ** Ids of Findings, and the handlers that change a row by id *)

Section IdProperties.
Import Database Statements.
Local Open Scope Z_scope.

Lemma exec_all_wf (ss : list statement) (d : db) :
  wf d -> wf (exec_all ss d).
Proof.
  revert d. induction ss as [| s ss IH]; intros d Hwf; [exact Hwf |].
  cbn [exec_all fold_left]. apply IH, exec_wf, Hwf.
Qed.

Lemma exec_all_seq_mono (ss : list statement) (d : db) :
  anomalies_seq d <= anomalies_seq (exec_all ss d).
Proof.
  revert d. induction ss as [| s ss IH]; intros d; [reflexivity |].
  cbn [exec_all fold_left]. pose proof (exec_seq_mono s d).
  specialize (IH (exec s d)). unfold exec_all in IH. lia.
Qed.

(** X13: the id of a Finding is never used again. Take a Finding that is
    in the table, run any statements of the models (it may be deleted by
    them), then [AnomalyModel.create]: when the foreign keys of the new row
    hold, the call returns a row whose id is larger than the old id and
    names no row of the table, [findById] on it returns that very row,
    unacknowledged and owned by the given user, and every other row is as
    before; when they do not hold, the call throws and the table is
    unchanged. *)
Theorem create_never_reuses_an_id (ss : list statement) (d : db)
    (data : AnomalyModel.AnomalyCreateInput) (i : Z) (a : Anomaly) :
  wf d ->
  anomalies d !! i = Some a ->
  (AnomalyModel.foreign_keys_hold (exec_all ss d)
     (AnomalyModel.in_user_id data)
     (AnomalyModel.transaction_id_or_null
        (AnomalyModel.in_transaction_id data)) = true ->
   exists row d',
     AnomalyModel.create data (exec_all ss d) = (Ok row, d')
     /\ i < id row
     /\ anomalies (exec_all ss d) !! id row = None
     /\ AnomalyModel.findById (id row) d' = (Ok (Some row), d')
     /\ user_id row = AnomalyModel.in_user_id data
     /\ acknowledged row = false
     /\ (forall j, j <> id row ->
                   anomalies d' !! j = anomalies (exec_all ss d) !! j))
  /\ (AnomalyModel.foreign_keys_hold (exec_all ss d)
        (AnomalyModel.in_user_id data)
        (AnomalyModel.transaction_id_or_null
           (AnomalyModel.in_transaction_id data)) = false ->
      AnomalyModel.create data (exec_all ss d)
      = (SqliteError "SQLITE_CONSTRAINT_FOREIGNKEY", exec_all ss d)).
Proof.
  intros Hwf Hrow.
  pose proof (exec_all_wf ss d Hwf) as Hwf'.
  pose proof (exec_all_seq_mono ss d) as Hmono.
  pose proof (Hwf i a Hrow) as Hi.
  unfold AnomalyModel.create. cbv zeta.
  split; intros ->; [| reflexivity].
  eexists. eexists. split; [reflexivity |]. cbn [id user_id acknowledged].
  split; [lia |]. split.
  - destruct (anomalies (exec_all ss d) !! (anomalies_seq (exec_all ss d) + 1))
      as [b |] eqn:Hb; [| reflexivity].
    apply Hwf' in Hb. lia.
  - split.
    + unfold AnomalyModel.findById. cbn [set_anomalies anomalies].
      rewrite lookup_insert_eq. reflexivity.
    + split; [reflexivity |]. split; [reflexivity |].
      intros j Hj. cbn [set_anomalies anomalies].
      apply lookup_insert_ne. congruence.
Qed.

End IdProperties.

Section ControllerProperties.
Import Database Controllers.
Local Open Scope Z_scope.

Variable parseInt : string -> option Z.

Lemma acknowledgeAnomaly_cases (userId : Z) (params_id : string) (d : db) :
  (exists i a,
      parseInt params_id = Some i /\ anomalies d !! i = Some a
      /\ user_id a = userId
      /\ acknowledgeAnomaly parseInt userId params_id d
         = (Json 200 "Anomaly acknowledged successfully",
            set_anomalies d
              (<[i := AnomalyModel.set_acknowledged a]> (anomalies d))
              (anomalies_seq d)))
  \/ acknowledgeAnomaly parseInt userId params_id d
     = (AppError "Anomaly not found" 404, d)
  \/ acknowledgeAnomaly parseInt userId params_id d
     = (AppError "Unauthorized access to anomaly" 403, d).
Proof.
  unfold acknowledgeAnomaly. cbv zeta.
  destruct (parseInt params_id) as [i |]; cbn [bound].
  - unfold AnomalyModel.findById, AnomalyModel.acknowledge.
    destruct (anomalies d !! i) as [a |] eqn:Hrow.
    + destruct (Z.eqb_spec (user_id a) userId) as [Howner | Hother];
        cbn [negb].
      * left. exists i, a. repeat split; assumption || reflexivity.
      * right. right. reflexivity.
    + right. left. reflexivity.
  - right. left. reflexivity.
Qed.

(** X14: the acknowledge handler changes a Finding only for its owner.
    Whoever asks and whatever the [:id], the request ends in one of three
    ways: 200, and then the id names a Finding of the requesting user,
    which is acknowledged afterwards; 404 with the database unchanged; or
    403 with the database unchanged. In every case the Findings of other
    users, and every Finding but the one named, are exactly as before, and
    so are the transactions and the users. *)
Theorem acknowledgeAnomaly_authorised (userId : Z) (params_id : string)
    (d : db) :
  ((exists i a,
      parseInt params_id = Some i /\ anomalies d !! i = Some a
      /\ user_id a = userId
      /\ (acknowledgeAnomaly parseInt userId params_id d).1
         = Json 200 "Anomaly acknowledged successfully"
      /\ anomalies (acknowledgeAnomaly parseInt userId params_id d).2 !! i
         = Some (AnomalyModel.set_acknowledged a))
   \/ acknowledgeAnomaly parseInt userId params_id d
      = (AppError "Anomaly not found" 404, d)
   \/ acknowledgeAnomaly parseInt userId params_id d
      = (AppError "Unauthorized access to anomaly" 403, d))
  /\ (forall j b,
        anomalies d !! j = Some b ->
        user_id b <> userId \/ parseInt params_id <> Some j ->
        anomalies (acknowledgeAnomaly parseInt userId params_id d).2 !! j
        = Some b)
  /\ transactions (acknowledgeAnomaly parseInt userId params_id d).2
     = transactions d
  /\ users (acknowledgeAnomaly parseInt userId params_id d).2 = users d.
Proof.
  destruct (acknowledgeAnomaly_cases userId params_id d)
    as [(i & a & Hid & Hrow & Howner & ->) | [-> | ->]];
    cbn [fst snd].
  - split; [| split; [| split; reflexivity]].
    + left. exists i, a. repeat split; try assumption.
      cbn [set_anomalies anomalies]. apply lookup_insert_eq.
    + intros j b Hb Hj. cbn [set_anomalies anomalies].
      rewrite lookup_insert_ne; [exact Hb |].
      intros <-. destruct Hj as [Hj | Hj]; [| now apply Hj].
      rewrite Hrow in Hb. injection Hb as <-. now apply Hj.
  - split; [right; left; reflexivity |].
    split; [intros; assumption | split; reflexivity].
  - split; [right; right; reflexivity |].
    split; [intros; assumption | split; reflexivity].
Qed.

Lemma deleteTransaction_cases (userId : Z) (params_id : string) (d : db) :
  (exists i,
      parseInt params_id = Some i /\ transactions d !! i = Some userId
      /\ deleteTransaction parseInt userId params_id d
         = (Json 200 "Transaction deleted successfully",
            (TransactionModel.delete i d).2))
  \/ deleteTransaction parseInt userId params_id d
     = (AppError "Transaction not found" 404, d)
  \/ deleteTransaction parseInt userId params_id d
     = (AppError "Unauthorized access to transaction" 403, d).
Proof.
  unfold deleteTransaction. cbv zeta.
  destruct (parseInt params_id) as [i |]; cbn [bound].
  - unfold TransactionModel.findById, TransactionModel.delete.
    destruct (transactions d !! i) as [owner |] eqn:Hrow.
    + destruct (Z.eqb_spec owner userId) as [-> | Hother]; cbn [negb].
      * left. exists i. split; [reflexivity |]. split; [exact Hrow |].
        rewrite Hrow. reflexivity.
      * right. right. reflexivity.
    + right. left. reflexivity.
  - right. left. reflexivity.
Qed.

(** X15: the delete handler removes a transaction only for its owner.
    The request ends with 200, and then the id names a transaction of the
    requesting user, which is gone afterwards; or with 404 or 403 and the
    database unchanged. The transactions of other users, and every
    transaction but the one named, stay. No Finding is created or changed,
    and a Finding disappears only when it references the deleted
    transaction and foreign keys are enforced; this holds whoever owns the
    Finding. *)
Theorem deleteTransaction_authorised (userId : Z) (params_id : string)
    (d : db) :
  ((exists i,
      parseInt params_id = Some i /\ transactions d !! i = Some userId
      /\ (deleteTransaction parseInt userId params_id d).1
         = Json 200 "Transaction deleted successfully"
      /\ transactions (deleteTransaction parseInt userId params_id d).2 !! i
         = None)
   \/ deleteTransaction parseInt userId params_id d
      = (AppError "Transaction not found" 404, d)
   \/ deleteTransaction parseInt userId params_id d
      = (AppError "Unauthorized access to transaction" 403, d))
  /\ (forall j owner,
        transactions d !! j = Some owner ->
        owner <> userId \/ parseInt params_id <> Some j ->
        transactions (deleteTransaction parseInt userId params_id d).2 !! j
        = Some owner)
  /\ (forall j a,
        anomalies (deleteTransaction parseInt userId params_id d).2 !! j
        = Some a ->
        anomalies d !! j = Some a)
  /\ (forall j a,
        anomalies d !! j = Some a ->
        anomalies (deleteTransaction parseInt userId params_id d).2 !! j
        = None ->
        exists i,
          parseInt params_id = Some i /\ transaction_id a = Some i
          /\ transactions d !! i = Some userId /\ foreign_keys d = true).
Proof.
  destruct (deleteTransaction_cases userId params_id d)
    as [(i & Hid & Hrow & ->) | [-> | ->]]; cbn [fst snd].
  - unfold TransactionModel.delete. rewrite Hrow.
    cbn [snd set_anomalies set_transactions transactions anomalies].
    split; [| split; [| split]].
    + left. exists i. repeat split; try assumption. apply lookup_delete_eq.
    + intros j owner Hj Hother.
      rewrite lookup_delete_ne; [exact Hj |].
      intros <-. destruct Hother as [Hother | Hother]; [| now apply Hother].
      rewrite Hrow in Hj. injection Hj as <-. now apply Hother.
    + intros j a. apply cascade_lookup_Some.
    + intros j a Hj Hgone.
      destruct (cascade_lookup_None _ _ _ _ Hj Hgone) as (Hfk & t & Ht & Heq).
      apply Z.eqb_eq in Heq. subst t. exists i. repeat split; assumption.
  - split; [right; left; reflexivity |].
    split; [intros; assumption |]. split; [intros; assumption |].
    intros j a Hj Hgone. congruence.
  - split; [right; right; reflexivity |].
    split; [intros; assumption |]. split; [intros; assumption |].
    intros j a Hj Hgone. congruence.
Qed.

End ControllerProperties.

(** ** Date ranges *)

Section DateProperties.
Import Dates.
Local Open Scope Z_scope.

Lemma digit_bounds (c : Ascii.ascii) :
  digit c = true -> 0 <= digit_value c <= 9.
Proof.
  unfold digit, digit_value. intros H. apply andb_prop in H as [H1 H2].
  apply N.leb_le in H1, H2. lia.
Qed.

Lemma ascii_compare_digits (a b : Ascii.ascii) :
  CompareSpec (digit_value a = digit_value b)
              (digit_value a < digit_value b)
              (digit_value b < digit_value a)
              (Ascii.compare a b).
Proof.
  unfold Ascii.compare, digit_value.
  destruct (N.compare_spec (Ascii.N_of_ascii a) (Ascii.N_of_ascii b));
    constructor; lia.
Qed.

Lemma ascii_compare_hyphens (a b : Ascii.ascii) :
  hyphen a = true -> hyphen b = true -> Ascii.compare a b = Eq.
Proof.
  unfold hyphen, Ascii.compare. intros Ha Hb.
  apply N.eqb_eq in Ha, Hb. rewrite Ha, Hb. reflexivity.
Qed.

Lemma text_le_dates (a b : string) :
  date_pattern a = true -> date_pattern b = true ->
  text_le a b = true <-> not_after (year_month_day a) (year_month_day b).
Proof.
  intros Ha Hb.
  destruct a as [| a1 [| a2 [| a3 [| a4 [| a5 [| a6 [| a7 [| a8 [| a9
             [| a10 [| ? ?]]]]]]]]]]]; try discriminate Ha.
  destruct b as [| b1 [| b2 [| b3 [| b4 [| b5 [| b6 [| b7 [| b8 [| b9
             [| b10 [| ? ?]]]]]]]]]]]; try discriminate Hb.
  cbn [date_pattern] in Ha, Hb.
  repeat match goal with
         | H : _ && _ = true |- _ => apply andb_prop in H as [? ?]
         end.
  repeat match goal with
         | H : digit _ = true |- _ => apply digit_bounds in H
         end.
  unfold text_le, String.leb, not_after. cbn [String.compare year_month_day fst snd].
  rewrite (ascii_compare_hyphens a5 b5), (ascii_compare_hyphens a8 b8)
    by assumption.
  destruct (ascii_compare_digits a1 b1); [| split; [lia | reflexivity]
                                          | split; [discriminate | lia]].
  destruct (ascii_compare_digits a2 b2); [| split; [lia | reflexivity]
                                          | split; [discriminate | lia]].
  destruct (ascii_compare_digits a3 b3); [| split; [lia | reflexivity]
                                          | split; [discriminate | lia]].
  destruct (ascii_compare_digits a4 b4); [| split; [lia | reflexivity]
                                          | split; [discriminate | lia]].
  destruct (ascii_compare_digits a6 b6); [| split; [lia | reflexivity]
                                          | split; [discriminate | lia]].
  destruct (ascii_compare_digits a7 b7); [| split; [lia | reflexivity]
                                          | split; [discriminate | lia]].
  destruct (ascii_compare_digits a9 b9); [| split; [lia | reflexivity]
                                          | split; [discriminate | lia]].
  destruct (ascii_compare_digits a10 b10); [| split; [lia | reflexivity]
                                            | split; [discriminate | lia]].
  split; [lia | reflexivity].
Qed.

(** X17: a date range selects by the calendar. When the stored date and
    both ends of the range match the pattern that [transactionSchema]
    demands of a date, the WHERE clause of [findByUserIdAndDateRange], which
    compares texts, selects a row exactly when the row belongs to the user
    and its (year, month, day) is not before that of the start and not
    after that of the end. *)
Theorem date_range_is_chronological (userId row_user_id : Z)
    (startDate endDate row_date : string) :
  date_pattern startDate = true ->
  date_pattern endDate = true ->
  date_pattern row_date = true ->
  date_range_selects userId startDate endDate row_user_id row_date = true
  <-> row_user_id = userId
      /\ not_after (year_month_day startDate) (year_month_day row_date)
      /\ not_after (year_month_day row_date) (year_month_day endDate).
Proof.
  intros Hstart Hend Hrow. unfold date_range_selects.
  rewrite !andb_true_iff, Z.eqb_eq.
  rewrite (text_le_dates startDate row_date Hstart Hrow).
  rewrite (text_le_dates row_date endDate Hrow Hend).
  reflexivity.
Qed.

End DateProperties.

(** ** Buffers, text and Base64 on any input *)

Section CodecCoverage.
Import Codec.
Local Open Scope Z_scope.

(** X1: [base642ab] undoes [ab2base64] on every buffer of bytes that
    fits in the arguments of one call, which every buffer of up to 65535
    bytes does in every engine: [ab2base64] returns a string, four
    characters for every three bytes begun, made of the characters of the
    Base64 alphabet and [=] only, and [base642ab] of that string is the
    buffer, byte for byte. On a longer buffer [ab2base64] throws (the
    spread into [String.fromCharCode] is a RangeError). *)
Theorem base64_buffer_round_trip (headroom : nat) (buffer : bytes) :
  Forall is_byte buffer ->
  (Z.of_nat (length buffer) <= argument_limit headroom ->
   exists base64,
     ab2base64 headroom buffer = Some base64
     /\ base642ab base64 = Some buffer
     /\ Z.of_nat (length base64) = 4 * ((Z.of_nat (length buffer) + 2) / 3)
     /\ Forall (fun c => is_Some (base64_value c) \/ c = 61) base64)
  /\ 65535 <= argument_limit headroom
  /\ (argument_limit headroom < Z.of_nat (length buffer) ->
      ab2base64 headroom buffer = None).
Proof.
  intros Hbytes.
  split; [| split; [unfold argument_limit; lia | apply ab2base64_too_long]].
  intros Hfits.
  destruct (base64_round_trip headroom buffer Hbytes Hfits) as [Henc Hdec].
  exists (base64_encode buffer). split; [exact Henc |]. split; [exact Hdec |].
  clear Henc Hdec Hfits. split.
  - clear Hbytes.
    induction buffer as [| a | a b | a b c rest IH] using list_ind3;
      try reflexivity.
    cbn [base64_encode length]. rewrite !Nat2Z.inj_succ.
    Z.div_mod_to_equations. lia.
  - rewrite base64_encode_split. apply Forall_app. split.
    + apply Forall_map. eapply Forall_impl; [exact (sextets_range _ Hbytes) |].
      intros v Hv. left. cbn beta.
      rewrite (proj1 (base64_char_spec v Hv)). eauto.
    + apply Forall_forall. intros c Hc. right.
      apply list_elem_of_In, repeat_spec in Hc. exact Hc.
Qed.

Lemma strip_equals_keeps (data : jsstring) (c : Z) :
  In c data -> c <> 61 -> In c (strip_equals data).
Proof.
  intros Hin Hc. unfold strip_equals.
  destruct (Z.eqb_spec (List.last data 0) 61) as [Hlast | _]; [| exact Hin].
  destruct data as [| x xs]; [destruct Hin |].
  rewrite (app_removelast_last 0 (l := x :: xs)) in Hin by discriminate.
  apply in_app_or in Hin. destruct Hin as [Hin | [Heq | []]]; [exact Hin |].
  congruence.
Qed.

Lemma base64_values_rejects (data : jsstring) (c : Z) :
  In c data -> base64_value c = None -> base64_values data = None.
Proof.
  intros Hin Hc. induction data as [| x xs IH]; [destruct Hin |].
  cbn [base64_values]. destruct Hin as [-> | Hin].
  - rewrite Hc. reflexivity.
  - rewrite (IH Hin). destruct (base64_value x); reflexivity.
Qed.

(** [atob] throws on a character that is outside the alphabet and is
    neither white space nor [=], wherever it stands. *)
Lemma atob_rejects (data : jsstring) (c : Z) :
  In c data ->
  base64_value c = None -> c <> 61 -> ascii_whitespace c = false ->
  atob data = None.
Proof.
  intros Hin Hvalue Hpad Hspace. unfold atob. cbv zeta.
  set (data1 := List.filter _ data).
  assert (Hin1 : In c data1).
  { apply filter_In. split; [exact Hin |]. now rewrite Hspace. }
  match goal with
  | |- context [base64_values ?data2] =>
      assert (Hin2 : In c data2)
  end.
  { destruct (_ =? 0); [| exact Hin1].
    apply strip_equals_keeps; [| exact Hpad].
    apply strip_equals_keeps; assumption. }
  rewrite (base64_values_rejects _ c Hin2 Hvalue).
  destruct (_ =? 1); reflexivity.
Qed.

Lemma code_units_well_formed (cs : list Z) :
  Forall scalar cs -> well_formed (flat_map code_units cs) = true.
Proof.
  induction 1 as [| c cs Hc _ IH]; [reflexivity |].
  cbn [flat_map]. unfold code_units at 1.
  destruct (Z.ltb_spec c 0x10000) as [Hbmp | Hsupp].
  - cbn [app well_formed]. rewrite IH.
    unfold high_surrogate, low_surrogate. unfold scalar in Hc.
    destruct (Z.leb_spec 0 c), (Z.ltb_spec c 65536),
      (Z.leb_spec 0xD800 c), (Z.leb_spec c 0xDBFF),
      (Z.leb_spec 0xDC00 c), (Z.leb_spec c 0xDFFF);
      try reflexivity; lia.
  - cbn [app well_formed]. rewrite IH.
    unfold high_surrogate, low_surrogate. unfold scalar in Hc.
    assert (Hq : 0 <= (c - 0x10000) / 0x400 < 0x400)
      by (Z.div_mod_to_equations; lia).
    assert (Hr : 0 <= (c - 0x10000) mod 0x400 < 0x400)
      by (Z.div_mod_to_equations; lia).
    set (q := (c - 0x10000) / 0x400) in *.
    set (r := (c - 0x10000) mod 0x400) in *.
    destruct (Z.leb_spec 0 (0xD800 + q)), (Z.ltb_spec (0xD800 + q) 65536),
      (Z.leb_spec 0xD800 (0xD800 + q)), (Z.leb_spec (0xD800 + q) 0xDBFF),
      (Z.leb_spec 0xDC00 (0xDC00 + r)), (Z.leb_spec (0xDC00 + r) 0xDFFF);
      try reflexivity; lia.
Qed.

Lemma strip_bom_scalar (cs : list Z) :
  Forall scalar cs -> Forall scalar (strip_bom cs).
Proof.
  intros H. destruct H as [| c cs Hc Hcs]; [constructor |].
  cbn [strip_bom]. destruct (c =? 0xFEFF); [exact Hcs |].
  constructor; assumption.
Qed.

(** X16: what [str2ab] followed by [ab2str] does to any string. The
    buffer holds bytes only, and the string that comes back is always
    well formed (every surrogate paired), also when the string that went in
    was not; a well-formed string comes back unchanged, except that a
    leading U+FEFF is dropped. *)
Theorem text_survives_the_codec (s : jsstring) :
  Forall is_code_unit s ->
  Forall is_byte (str2ab s)
  /\ well_formed (ab2str (str2ab s)) = true
  /\ (well_formed s = true ->
      ab2str (str2ab s) = if starts_with_bom s then List.tl s else s).
Proof.
  intros Hs. split; [exact (str2ab_bytes s Hs) |]. split.
  - rewrite (text_codec s Hs).
    apply code_units_well_formed, strip_bom_scalar, scalar_values_scalar, Hs.
  - intros Hwf. rewrite (text_round_trip s Hwf).
    destruct s as [| u rest]; reflexivity.
Qed.

End CodecCoverage.

(** ** Decryption of malformed input, salts, and whole transactions *)

Section EncryptionCoverage.
Import Codec Encryption.
Local Open Scope Z_scope.

Variable headroom : nat.
Variable CryptoKey : Type.
Variable PBKDF2 : bytes -> bytes -> Z -> Z -> CryptoKey.
Variable AES_GCM_decrypt : CryptoKey -> bytes -> bytes -> option bytes.
Variable JSON_value : Type.
Variable JSON_parse : jsstring -> option JSON_value.

Local Abbreviation decryptData := (decryptData CryptoKey AES_GCM_decrypt).
Local Abbreviation decryptTransaction :=
  (decryptTransaction CryptoKey AES_GCM_decrypt JSON_value JSON_parse).
Local Abbreviation getKeyForUser := (getKeyForUser CryptoKey PBKDF2).

(** X2: malformed Base64 never reaches the cipher. When the ciphertext or
    the IV holds a character that is outside the Base64 alphabet and is
    neither white space nor [=], [decryptData] and [decryptTransaction]
    reject, under every key and whatever the cipher would have answered. *)
Theorem decryptData_rejects_malformed_base64
    (encryptedData iv : jsstring) (key : CryptoKey) (c : Z) :
  In c encryptedData \/ In c iv ->
  base64_value c = None -> c <> 61 -> ascii_whitespace c = false ->
  decryptData encryptedData iv key = None
  /\ decryptTransaction encryptedData iv key = None.
Proof.
  intros Hin Hvalue Hpad Hspace.
  assert (Hdata : decryptData encryptedData iv key = None).
  { unfold Encryption.decryptData, base642ab.
    destruct Hin as [Hin | Hin].
    - now rewrite (atob_rejects encryptedData c Hin Hvalue Hpad Hspace).
    - rewrite (atob_rejects iv c Hin Hvalue Hpad Hspace).
      destruct (atob encryptedData); reflexivity. }
  split; [exact Hdata |].
  unfold Encryption.decryptTransaction. now rewrite Hdata.
Qed.

(** X4: what is read back is the buffer under the salt. [saveSalt]
    encodes [salt.buffer], so for every array over a buffer of bytes that
    fits in the arguments of one call it succeeds, and [getSalt] for the
    same user then returns an array that covers that whole buffer; it is
    the salt that was saved exactly when the salt covered its buffer, as
    an array fresh from [generateSalt] does, and for a window on part of a
    larger buffer it is not. An empty buffer is stored as the empty string,
    which [getSalt] reads as no salt at all ([null]). What is stored for
    other users is not touched. Over a buffer that does not fit,
    [saveSalt] throws. *)
Theorem saveSalt_getSalt (userId : Z) (salt : Uint8Array) (ls : storage) :
  Forall is_byte (buffer salt) ->
  (Z.of_nat (length (buffer salt)) <= argument_limit headroom ->
   exists ls',
     saveSalt headroom userId salt ls = Some ls'
     /\ getSalt userId ls'
        = Some (match buffer salt with
                | [] => None
                | _ :: _ => Some (new_Uint8Array (buffer salt))
                end)
     /\ (buffer salt <> [] ->
         (getSalt userId ls' = Some (Some salt)
          <-> byteOffset salt = 0%nat
              /\ byteLength salt = length (buffer salt)))
     /\ (forall other, other <> userId ->
                       getSalt other ls' = getSalt other ls))
  /\ (argument_limit headroom < Z.of_nat (length (buffer salt)) ->
      saveSalt headroom userId salt ls = None).
Proof.
  intros Hbytes. split.
  - intros Hfits.
    destruct (base64_round_trip headroom _ Hbytes Hfits) as [Henc Hdec].
    unfold saveSalt. rewrite Henc. eexists. split; [reflexivity |].
    assert (Hget : getSalt userId
                     (<[salt_key userId := base64_encode (buffer salt)]> ls)
                   = Some (match buffer salt with
                           | [] => None
                           | _ :: _ => Some (new_Uint8Array (buffer salt))
                           end)).
    { unfold getSalt. rewrite lookup_insert_eq.
      destruct (buffer salt) as [| a rest]; [reflexivity |].
      destruct (base64_encode (a :: rest)) as [| u text] eqn:Htext.
      + destruct rest as [| b [| c rest]]; discriminate Htext.
      + rewrite Hdec. reflexivity. }
    split; [exact Hget |]. split.
    + intros Hne. rewrite Hget.
      destruct salt as [buf off len]. cbn [buffer byteOffset byteLength] in *.
      destruct buf as [| a rest]; [contradiction |].
      unfold new_Uint8Array. split.
      * intros [= <- <-]. split; reflexivity.
      * intros [-> ->]. reflexivity.
    + intros other Hother. unfold getSalt.
      rewrite lookup_insert_ne; [reflexivity |].
      intros Heq. apply salt_key_inj in Heq. congruence.
  - intros Hlong. unfold saveSalt.
    now rewrite ab2base64_too_long.
Qed.

(** X5: after [clearUserData] the key of that user cannot be derived any
    more: [getKeyForUser] throws "Encryption salt not found. User may need
    to re-register.", whatever the password and whatever was stored. For
    every other user [getKeyForUser] answers as before. *)
Theorem getKeyForUser_after_clearUserData (userId : Z)
    (password : jsstring) (ls : storage) :
  getKeyForUser userId password (clearUserData userId ls)
  = Thrown CryptoKey
      (lit "Encryption salt not found. User may need to re-register.")
  /\ (forall other password',
        other <> userId ->
        getKeyForUser other password' (clearUserData userId ls)
        = getKeyForUser other password' ls).
Proof.
  unfold Encryption.getKeyForUser, getSalt, clearUserData, removeSalt. split.
  - rewrite lookup_delete_eq. reflexivity.
  - intros other password' Hother.
    rewrite lookup_delete_ne; [reflexivity |].
    intros Heq. apply salt_key_inj in Heq. congruence.
Qed.

End EncryptionCoverage.

Section EncryptTransactionProperties.
Import Codec Encryption.
Local Open Scope Z_scope.

Variable headroom : nat.
Variable CryptoKey : Type.
Variable AES_GCM_encrypt : CryptoKey -> bytes -> bytes -> bytes.
Variable AES_GCM_decrypt : CryptoKey -> bytes -> bytes -> option bytes.
Variable tag_length : nat.
Variable JSON_value : Type.
Variable JSON_parse : jsstring -> option JSON_value.
Variable PlainTransaction : Type.
Variable amount : PlainTransaction -> JS.number.
Variable JSON_stringify : PlainTransaction -> jsstring.
Variable amount_toString : JS.number -> jsstring.

Hypothesis AES_GCM_bytes : forall key iv data,
  Forall is_byte data -> Forall is_byte (AES_GCM_encrypt key iv data).
Hypothesis AES_GCM_length : forall key iv data,
  length (AES_GCM_encrypt key iv data) = (length data + tag_length)%nat.
Hypothesis AES_GCM_decrypt_encrypt : forall key iv data,
  Forall is_byte data ->
  AES_GCM_decrypt key iv (AES_GCM_encrypt key iv data) = Some data.

Local Abbreviation encryptData :=
  (encryptData headroom CryptoKey AES_GCM_encrypt).
Local Abbreviation decryptData := (decryptData CryptoKey AES_GCM_decrypt).
Local Abbreviation decryptTransaction :=
  (decryptTransaction CryptoKey AES_GCM_decrypt JSON_value JSON_parse).
Local Abbreviation encryptTransaction :=
  (encryptTransaction headroom CryptoKey AES_GCM_encrypt PlainTransaction
     amount JSON_stringify amount_toString).

(** What [encryptData] returns, in full, when the ciphertext fits in the
    arguments of one call. *)
Lemma encryptData_envelope (data : jsstring) (key : CryptoKey) (e : entropy) :
  Forall is_code_unit data ->
  Z.of_nat (length (str2ab data) + tag_length) <= argument_limit headroom ->
  encryptData data key e
  = (Some (mkEnvelope
             (base64_encode
                (AES_GCM_encrypt key (map (fun i => e i mod 256) (seq 0 12))
                   (str2ab data)))
             (base64_encode (map (fun i => e i mod 256) (seq 0 12)))),
     fun i => e (12 + i)%nat).
Proof.
  intros Hdata Hfits. unfold Encryption.encryptData.
  pose proof (getRandomValues_bytes IV_LENGTH e) as Hiv.
  pose proof (getRandomValues_fits headroom IV_LENGTH e) as Hivfits.
  unfold getRandomValues, IV_LENGTH in *. cbn [fst] in Hiv, Hivfits.
  rewrite (elements_new_Uint8Array (map (fun i => e i mod 256) (seq 0 12))).
  cbn [new_Uint8Array buffer] in *.
  pose proof (AES_GCM_bytes key (map (fun i => e i mod 256) (seq 0 12)) _
                (str2ab_bytes data Hdata)) as Hct.
  rewrite (proj1 (base64_round_trip headroom _ Hct
                    ltac:(rewrite AES_GCM_length; exact Hfits))).
  rewrite (proj1 (base64_round_trip headroom _ Hiv
                    (Hivfits ltac:(lia)))).
  reflexivity.
Qed.

(** X3: what [encryptTransaction] returns decrypts to the transaction.
    Take a cipher that decrypts what it encrypted and whose ciphertext is
    the plaintext and a tag in length, a transaction whose JSON text is a
    well-formed string that does not start with U+FEFF (what
    [JSON.stringify] produces), and an amount whose text consists of code
    units. When the UTF-8 bytes of the JSON text and the tag, and those of
    the amount's text and the tag, fit in the arguments of one call (65535
    at least, in every engine), [encryptTransaction] succeeds and draws 24
    random bytes. [decryptData] of [encrypted_data] and [iv] under the same
    key is the JSON text, so [decryptTransaction] is [JSON.parse] of it.
    The [iv] returned is the first 12 bytes drawn; [amount_encrypted] is
    the amount's text encrypted under the next 12 bytes, which are not part
    of what is returned. When the JSON text and the tag do not fit,
    [encryptTransaction] rejects. *)
Theorem encryptTransaction_round_trip (transaction : PlainTransaction)
    (key : CryptoKey) (e : entropy) :
  well_formed (JSON_stringify transaction) = true ->
  starts_with_bom (JSON_stringify transaction) = false ->
  Forall is_code_unit (amount_toString (amount transaction)) ->
  Z.of_nat (length (str2ab (amount_toString (amount transaction)))
            + tag_length) <= argument_limit headroom ->
  (Z.of_nat (length (str2ab (JSON_stringify transaction)) + tag_length)
   <= argument_limit headroom ->
   exists r e',
     encryptTransaction transaction key e = (Some r, e')
     /\ (forall i, e' i = e (24 + i)%nat)
     /\ decryptData (EncryptedTransaction.encrypted_data r)
          (EncryptedTransaction.iv r) key
        = Some (JSON_stringify transaction)
     /\ decryptTransaction (EncryptedTransaction.encrypted_data r)
          (EncryptedTransaction.iv r) key
        = JSON_parse (JSON_stringify transaction)
     /\ base642ab (EncryptedTransaction.iv r)
        = Some (map (fun i => e i mod 256) (seq 0 12))
     /\ base642ab (EncryptedTransaction.amount_encrypted r)
        = Some (AES_GCM_encrypt key (map (fun i => e i mod 256) (seq 12 12))
                  (str2ab (amount_toString (amount transaction)))))
  /\ (argument_limit headroom
      < Z.of_nat (length (str2ab (JSON_stringify transaction)) + tag_length) ->
      (encryptTransaction transaction key e).1 = None).
Proof.
  intros Hwf Hbom Hamount Hamount_fits.
  pose proof (well_formed_code_units _ Hwf) as Hjson. split.
  - intros Hfits.
    unfold Encryption.encryptTransaction. cbv zeta.
    rewrite (encryptData_envelope _ key e Hjson Hfits).
    rewrite (encryptData_envelope _ key _ Hamount Hamount_fits).
    eexists. eexists. split; [reflexivity |].
    cbn [EncryptedTransaction.encrypted_data EncryptedTransaction.iv
         EncryptedTransaction.amount_encrypted encryptedData iv].
    set (iv1 := map (fun i => e i mod 256) (seq 0 12)).
    assert (Hiv : Forall is_byte iv1).
    { apply Forall_map, Forall_forall. intros i _. cbn. unfold is_byte.
      Z.div_mod_to_equations; lia. }
    assert (Hiv_fits : Z.of_nat (length iv1) <= argument_limit headroom).
    { unfold iv1, argument_limit. rewrite length_map, length_seq. lia. }
    assert (Hct_fits : forall iv data,
               Z.of_nat (length (str2ab data) + tag_length)
               <= argument_limit headroom ->
               Z.of_nat (length (AES_GCM_encrypt key iv (str2ab data)))
               <= argument_limit headroom).
    { intros iv data H. now rewrite AES_GCM_length. }
    assert (Hdec : decryptData
              (base64_encode
                 (AES_GCM_encrypt key iv1
                    (str2ab (JSON_stringify transaction))))
              (base64_encode iv1) key
            = Some (JSON_stringify transaction)).
    { unfold Encryption.decryptData.
      rewrite (proj2 (base64_round_trip headroom _
                 (AES_GCM_bytes key _ _ (str2ab_bytes _ Hjson))
                 (Hct_fits _ _ Hfits))).
      rewrite (proj2 (base64_round_trip headroom _ Hiv Hiv_fits)).
      rewrite AES_GCM_decrypt_encrypt by exact (str2ab_bytes _ Hjson).
      rewrite text_round_trip by exact Hwf.
      destruct (JSON_stringify transaction) as [| u rest]; [reflexivity |].
      cbn [starts_with_bom] in Hbom. now rewrite Hbom. }
    split; [intros i; f_equal; lia |].
    split; [exact Hdec |].
    split; [unfold Encryption.decryptTransaction; now rewrite Hdec |].
    split.
    + exact (proj2 (base64_round_trip headroom _ Hiv Hiv_fits)).
    + rewrite (proj2 (base64_round_trip headroom _
                 (AES_GCM_bytes key _ _ (str2ab_bytes _ Hamount))
                 (Hct_fits _ _ Hamount_fits))).
      reflexivity.
  - intros Hlong. unfold Encryption.encryptTransaction. cbv zeta.
    pose proof (encryptData_too_long headroom CryptoKey AES_GCM_encrypt
                  tag_length AES_GCM_length (JSON_stringify transaction)
                  key e Hlong) as Hnone.
    destruct (encryptData (JSON_stringify transaction) key e)
      as [[env |] e1]; [discriminate Hnone | reflexivity].
Qed.

End EncryptTransactionProperties.

(** ** Logging in, registering and logging out *)

Section AuthProperties.
Import Codec Encryption UseAuth.
Local Open Scope Z_scope.

Variable headroom : nat.
Variable CryptoKey : Type.
Variable PBKDF2 : bytes -> bytes -> Z -> Z -> CryptoKey.
Variable JSON_stringify : User -> jsstring.

Local Abbreviation state := (state CryptoKey).
Local Abbreviation login := (login CryptoKey PBKDF2 JSON_stringify).
Local Abbreviation register :=
  (register headroom CryptoKey PBKDF2 JSON_stringify).
Local Abbreviation logout := (logout CryptoKey).
Local Abbreviation store_session := (store_session JSON_stringify).
Local Abbreviation deriveKey := (deriveKey CryptoKey PBKDF2).

(** The item of a salt is neither of the two items of the session. *)
Lemma salt_key_not_session (userId : Z) :
  salt_key userId <> lit "auth_token" /\ salt_key userId <> lit "user".
Proof. split; discriminate. Qed.

Lemma getSalt_store_session (userId : Z) (response : AuthResponse)
    (ls : storage) :
  getSalt userId (store_session response ls) = getSalt userId ls.
Proof.
  destruct (salt_key_not_session userId) as [Htoken Huser].
  unfold getSalt, UseAuth.store_session.
  rewrite !lookup_insert_ne by congruence. reflexivity.
Qed.

Lemma getSalt_logout (u : User) (ls : storage) (st : state) :
  st_user _ st = Some u -> getSalt (id u) (logout ls st).1 = Some None.
Proof.
  intros Hu. destruct (salt_key_not_session (id u)) as [Htoken Huser].
  unfold UseAuth.logout. rewrite Hu. cbn [fst].
  unfold getSalt, clearUserData, removeSalt.
  rewrite !lookup_delete_ne by congruence.
  rewrite lookup_delete_eq. reflexivity.
Qed.

(** Where no salt is stored for the user, as in a browser the user never
    registered in, a login that the server accepts still fails. *)
Lemma login_without_salt (response : AuthResponse) (password : jsstring)
    (ls : storage) (st : state) :
  getSalt (id (user response)) ls = Some None ->
  login (Resolved response) password ls st
  = (Some (lit "Login failed"), store_session response ls,
     mkState _ (Some (user response)) (encryptionKey _ st) false).
Proof.
  intros Hsalt. unfold UseAuth.login. cbv zeta.
  unfold getKeyForUser. rewrite getSalt_store_session, Hsalt. reflexivity.
Qed.

(** X6: after [logout], the same user cannot log in again in this
    browser. [logout] removes the user's salt, so a [login] that the server
    accepts throws "Login failed", whatever the password; by then the
    token is stored and the user is set, so the hook reports an
    authenticated user, without an encryption key and not loading. *)
Theorem login_after_logout_fails (response : AuthResponse)
    (password : jsstring) (ls : storage) (st : state) (u : User) :
  st_user _ st = Some u ->
  id (user response) = id u ->
  login (Resolved response) password (logout ls st).1 (logout ls st).2
  = (Some (lit "Login failed"), store_session response (logout ls st).1,
     mkState _ (Some (user response)) None false)
  /\ store_session response (logout ls st).1 !! lit "auth_token"
     = Some (token response)
  /\ isAuthenticated CryptoKey
       (mkState CryptoKey (Some (user response)) None false) = true.
Proof.
  intros Hu Hid. split; [| split; [| reflexivity]].
  - rewrite login_without_salt.
    + unfold UseAuth.logout. reflexivity.
    + rewrite Hid. apply getSalt_logout, Hu.
  - unfold UseAuth.store_session.
    rewrite lookup_insert_ne by discriminate. apply lookup_insert_eq.
Qed.

(** X7: the key of a registration is the key of the next login. When the
    server accepts a registration, [register] does not throw: it stores
    the session and a fresh salt and sets the key derived from the password
    and that salt. A later [login] of the same user with the same password
    in the same browser does not throw either and sets the same key. *)
Theorem register_then_login_same_key (registered next : AuthResponse)
    (password : jsstring) (ls : storage) (st : state) (e : entropy) :
  id (user next) = id (user registered) ->
  exists ls1 st1 e1,
    register (Resolved registered) password ls st e = (None, ls1, st1, e1)
    /\ encryptionKey _ st1 = Some (deriveKey password (generateSalt e).1)
    /\ st_user _ st1 = Some (user registered)
    /\ ls1 !! lit "auth_token" = Some (token registered)
    /\ login (Resolved next) password ls1 st1
       = (None, store_session next ls1,
          mkState _ (Some (user next))
            (Some (deriveKey password (generateSalt e).1)) false).
Proof.
  intros Hid.
  destruct (salt_key_not_session (id (user registered))) as [Htoken Huser].
  unfold UseAuth.register. cbv zeta.
  rewrite (initializeForUser_run headroom CryptoKey PBKDF2).
  assert (Hkey : deriveKey password (generateSalt e).1
                 = PBKDF2 (str2ab password)
                     (map (fun i => e i mod 256) (seq 0 16))
                     PBKDF2_ITERATIONS KEY_LENGTH).
  { unfold Encryption.deriveKey, generateSalt, getRandomValues, SALT_LENGTH.
    cbn [fst]. now rewrite elements_new_Uint8Array. }
  rewrite Hkey.
  eexists. eexists. eexists. split; [reflexivity |].
  split; [reflexivity |]. split; [reflexivity |]. split.
  - rewrite lookup_insert_ne by congruence.
    unfold UseAuth.store_session.
    rewrite lookup_insert_ne by discriminate. apply lookup_insert_eq.
  - unfold UseAuth.login. cbv zeta.
    rewrite (getKeyForUser_stored CryptoKey PBKDF2 _ password _
               (base64_encode (map (fun i => e i mod 256) (seq 0 16)))
               (map (fun i => e i mod 256) (seq 0 16))).
    + reflexivity.
    + unfold UseAuth.store_session.
      rewrite !lookup_insert_ne by (rewrite Hid; congruence).
      rewrite Hid. apply lookup_insert_eq.
    + cbn [seq map base64_encode]. discriminate.
    + apply (base64_round_trip headroom).
      * apply Forall_map, Forall_forall. intros i _. cbn. unfold is_byte.
        Z.div_mod_to_equations; lia.
      * unfold argument_limit. rewrite length_map, length_seq. lia.
Qed.

End AuthProperties.


(** ** The properties at concrete inputs *)

Import Examples.

Lemma insufficient_data_witness :
  (length [10%float; 2000%float] < 5)%nat
  /\ AnomalyDetector.isAnomaly
       (AnomalyDetector.detectAmountAnomaly (fun _ _ => "") 1000000%float
          [10%float; 2000%float] AnomalyDetector.default_threshold) = false.
Proof.
  split.
  - simpl. lia.
  - rewrite (insufficient_data (fun _ _ => "") 1000000%float
               AnomalyDetector.default_threshold [10%float; 2000%float]).
    + reflexivity.
    + simpl. lia.
Defined.

Lemma anomaly_boundary_witness :
  AnomalyDetector.analyzeTransaction (fun _ _ => "")
    (AnomalyDetector.mkTx 11 10%float (Some "Food") "2024-03-01")
    (map (fun a => AnomalyDetector.mkTx 1 a (Some "Food") "2024-02-01")
         AnomalyDetector.boundary_amounts) = [].
Proof.
  apply (anomaly_boundary (fun _ _ => "")
           (AnomalyDetector.mkTx 11 10%float (Some "Food") "2024-03-01")
           (AnomalyDetector.mkTx 12 500%float (Some "Food") "2024-03-01")
           (map (fun a => AnomalyDetector.mkTx 1 a (Some "Food") "2024-02-01")
                AnomalyDetector.boundary_amounts)); reflexivity.
Defined.





Lemma acknowledge_idempotent_one_way_witness :
  AnomalyModel.acknowledge 1 db_acknowledged = (Database.Ok true, db_acknowledged)
  /\ Database.anomalies
       (Statements.exec_all
          [Statements.AnomalyAcknowledge 1; Statements.TransactionCreate 1]
          db_acknowledged) !! 1%Z = Some finding_acknowledged.
Proof.
  split.
  - apply (proj1 (proj2 (proj2 acknowledge_idempotent_one_way))
             db_acknowledged 1%Z finding_acknowledged); reflexivity.
  - destruct (Database.anomalies _ !! 1%Z) as [a' |] eqn:Hrow.
    + f_equal.
      apply (proj2 (proj2 (proj2 acknowledge_idempotent_one_way))
               [Statements.AnomalyAcknowledge 1; Statements.TransactionCreate 1]
               db_acknowledged 1%Z finding_acknowledged a').
      * intros i a Hi. vm_compute in Hi.
        destruct i as [| [p | p |] |]; try discriminate; simpl; lia.
      * reflexivity.
      * reflexivity.
      * exact Hrow.
    + vm_compute in Hrow. discriminate.
Defined.

Lemma finding_deleted_only_by_witness :
  Database.anomalies
    (Statements.exec (Statements.TransactionDelete 1) db_1) !! 1%Z = None.
Proof.
  apply (proj1 (proj2 (finding_deleted_only_by
                         (Statements.TransactionDelete 1) db_1 1%Z finding_1
                         eq_refl)) 1%Z 1%Z); reflexivity.
Defined.



(** ** Concrete runs with the small cipher *)



Lemma initializeForUser_overwrites_witness :
  exists ls',
    (Encryption.initializeForUser headroom_example ToyCrypto.CryptoKey
       ToyCrypto.PBKDF2 7 (Codec.lit "correct horse") storage_example
       entropy_example).1
    = Some (key_example, ls')
    /\ Encryption.getKeyForUser ToyCrypto.CryptoKey ToyCrypto.PBKDF2 7
         (Codec.lit "correct horse") ls'
       = Encryption.Key ToyCrypto.CryptoKey key_example
    /\ Encryption.getKeyForUser ToyCrypto.CryptoKey ToyCrypto.PBKDF2 7
         (Codec.lit "correct horse") ls'
       <> Encryption.getKeyForUser ToyCrypto.CryptoKey ToyCrypto.PBKDF2 7
            (Codec.lit "correct horse") storage_example.
Proof.
  destruct (initializeForUser_overwrites headroom_example ToyCrypto.CryptoKey
              ToyCrypto.PBKDF2 7%Z (Codec.lit "correct horse")
              storage_example entropy_example
              (Codec.lit "b2xkIHNhbHQgb2YgdXNlciA3")
              (Codec.lit "old salt of user 7"))
    as (ls' & _ & Hrun & _ & Hnew & Hdiffer & _).
  - vm_compute. reflexivity.
  - discriminate.
  - vm_compute. reflexivity.
  - exists ls'. rewrite Hrun. split; [reflexivity |]. split.
    + rewrite Hnew. reflexivity.
    + apply Hdiffer. vm_compute. discriminate.
Defined.

(** C2, as stated, fails: the record that decrypts on its own is not
    returned once the batch also holds a record that does not; the hook
    ends with an empty list and the one error. *)
Lemma one_failure_drops_the_batch :
  UseTransactions.decrypts ToyCrypto.CryptoKey ToyCrypto.AES_GCM_decrypt ToyCrypto.JSON_value
    ToyCrypto.JSON_parse key_example good_record = true
  /\ UseTransactions.decrypts ToyCrypto.CryptoKey ToyCrypto.AES_GCM_decrypt
       ToyCrypto.JSON_value ToyCrypto.JSON_parse key_example foreign_record
     = false
  /\ map (UseTransactions.d_id ToyCrypto.JSON_value)
         (UseTransactions.transactions _ (fetch_example [good_record]))
     = [1%Z]
  /\ fetch_example [good_record; foreign_record]
     = UseTransactions.mkState ToyCrypto.JSON_value [] false
         (Some UseTransactions.decrypt_failure)
  /\ fetch_example [foreign_record; good_record]
     = UseTransactions.mkState ToyCrypto.JSON_value [] false
         (Some UseTransactions.decrypt_failure).
Proof. vm_compute. repeat split. Qed.

Lemma fetchTransactions_all_or_nothing_witness :
  fetch_example [good_record; foreign_record]
  = UseTransactions.mkState ToyCrypto.JSON_value [] false
      (Some UseTransactions.decrypt_failure).
Proof.
  apply (proj2 (fetchTransactions_all_or_nothing ToyCrypto.CryptoKey
                  ToyCrypto.AES_GCM_decrypt ToyCrypto.JSON_value
                  ToyCrypto.JSON_parse key_example
                  [good_record; foreign_record]
                  (UseTransactions.mkState ToyCrypto.JSON_value [] false None))
               foreign_record).
  - simpl. auto.
  - vm_compute. reflexivity.
Defined.

(** ** The further properties at concrete inputs *)

Lemma base64_buffer_round_trip_witness :
  exists base64,
    Codec.ab2base64 headroom_example [1; 2; 3; 255]%Z = Some base64
    /\ Codec.base642ab base64 = Some [1; 2; 3; 255]%Z
    /\ length base64 = 8%nat.
Proof.
  destruct (proj1 (base64_buffer_round_trip headroom_example
                     [1; 2; 3; 255]%Z
                     ltac:(repeat (apply Forall_cons; split;
                                   [unfold Codec.is_byte; lia |]);
                           constructor)))
    as (base64 & Henc & Hdec & Hlen & _).
  - vm_compute. discriminate.
  - exists base64. split; [exact Henc |]. split; [exact Hdec |].
    change (Z.of_nat (length base64) = 8%Z) in Hlen. lia.
Defined.

Lemma decryptData_rejects_malformed_base64_witness :
  Encryption.decryptData ToyCrypto.CryptoKey ToyCrypto.AES_GCM_decrypt
    (Codec.lit "AQI*") (Codec.lit "AAAA") key_example = None.
Proof.
  apply (decryptData_rejects_malformed_base64 ToyCrypto.CryptoKey
           ToyCrypto.AES_GCM_decrypt ToyCrypto.JSON_value ToyCrypto.JSON_parse
           (Codec.lit "AQI*") (Codec.lit "AAAA") key_example 42%Z).
  - left. simpl. auto.
  - reflexivity.
  - discriminate.
  - reflexivity.
Defined.

Lemma encryptTransaction_round_trip_witness :
  exists r e',
    encryptTransaction_example (Codec.lit "{}") = (Some r, e')
    /\ Encryption.decryptTransaction ToyCrypto.CryptoKey
         ToyCrypto.AES_GCM_decrypt ToyCrypto.JSON_value ToyCrypto.JSON_parse
         (Encryption.EncryptedTransaction.encrypted_data r)
         (Encryption.EncryptedTransaction.iv r) key_example
       = Some (Codec.lit "{}").
Proof.
  destruct (proj1 (encryptTransaction_round_trip headroom_example
                     ToyCrypto.CryptoKey
                     ToyCrypto.AES_GCM_encrypt ToyCrypto.AES_GCM_decrypt 1
                     ToyCrypto.JSON_value ToyCrypto.JSON_parse
                     Codec.jsstring (fun _ => 12.5%float) (fun t => t)
                     (fun _ => Codec.lit "12.5") toy_bytes toy_length
                     toy_decrypt_encrypt
                     (Codec.lit "{}") key_example entropy_example
                     eq_refl eq_refl
                     (well_formed_code_units (Codec.lit "12.5") eq_refl)
                     ltac:(vm_compute; discriminate)))
    as (r & e' & Hrun & _ & _ & Hdec & _).
  - vm_compute. discriminate.
  - exists r, e'. split; [exact Hrun | exact Hdec].
Defined.

Lemma saveSalt_getSalt_witness :
  exists ls',
    Encryption.saveSalt headroom_example 7
      (Codec.mkUint8Array [1; 2; 3; 4]%Z 1 2) storage_example = Some ls'
    /\ Encryption.getSalt 7 ls'
       = Some (Some (Codec.new_Uint8Array [1; 2; 3; 4]%Z))
    /\ Codec.elements (Codec.mkUint8Array [1; 2; 3; 4]%Z 1 2) = [2; 3]%Z.
Proof.
  destruct (proj1 (saveSalt_getSalt headroom_example 7%Z
                     (Codec.mkUint8Array [1; 2; 3; 4]%Z 1 2) storage_example
                     ltac:(repeat (apply Forall_cons; split;
                                   [unfold Codec.is_byte; lia |]);
                           constructor)))
    as (ls' & Hsave & Hget & _).
  - vm_compute. discriminate.
  - exists ls'. split; [exact Hsave |]. split; [exact Hget | reflexivity].
Defined.

Lemma login_after_logout_fails_witness :
  UseAuth.st_user _ session_7 = Some user_7
  /\ (UseAuth.login ToyCrypto.CryptoKey ToyCrypto.PBKDF2 user_text
        (UseAuth.Resolved response_7) (Codec.lit "correct horse")
        (UseAuth.logout _ storage_example session_7).1
        (UseAuth.logout _ storage_example session_7).2).1.1
     = Some (Codec.lit "Login failed").
Proof.
  split; [reflexivity |].
  rewrite (proj1 (login_after_logout_fails ToyCrypto.CryptoKey
                    ToyCrypto.PBKDF2 user_text response_7
                    (Codec.lit "correct horse") storage_example session_7
                    user_7 eq_refl eq_refl)).
  reflexivity.
Defined.

Lemma register_then_login_same_key_witness :
  exists ls1 st1 e1,
    UseAuth.register headroom_example ToyCrypto.CryptoKey ToyCrypto.PBKDF2
      user_text (UseAuth.Resolved response_7) (Codec.lit "correct horse") ∅
      (UseAuth.mkState ToyCrypto.CryptoKey None None true) entropy_example
    = (None, ls1, st1, e1)
    /\ (UseAuth.login ToyCrypto.CryptoKey ToyCrypto.PBKDF2 user_text
          (UseAuth.Resolved response_7) (Codec.lit "correct horse") ls1 st1).2
       = UseAuth.mkState ToyCrypto.CryptoKey (Some user_7) (Some key_example)
           false.
Proof.
  destruct (register_then_login_same_key headroom_example ToyCrypto.CryptoKey
              ToyCrypto.PBKDF2
              user_text response_7 response_7 (Codec.lit "correct horse") ∅
              (UseAuth.mkState ToyCrypto.CryptoKey None None true)
              entropy_example eq_refl)
    as (ls1 & st1 & e1 & Hregister & _ & _ & _ & Hlogin).
  exists ls1, st1, e1. split; [exact Hregister |].
  rewrite Hlogin. reflexivity.
Defined.

Lemma analyzeTransaction_needs_five_witness :
  AnomalyDetector.analyzeTransaction (fun _ _ => "")
    (AnomalyDetector.mkTx 5 1000000%float (Some "Food") "2024-03-01")
    (map (fun a => AnomalyDetector.mkTx 1 a (Some "Food") "2024-02-01")
         [10%float; 10%float; 10%float; 10%float])
  = [].
Proof.
  apply (analyzeTransaction_needs_five (fun _ _ => "")).
  simpl. lia.
Defined.

Lemma percentile_is_an_element_witness :
  AnomalyDetector.percentile [10%float; 20%float; 30%float] 50%float
  = Some 20%float
  /\ In 20%float [10%float; 20%float; 30%float].
Proof.
  assert (H : AnomalyDetector.percentile [10%float; 20%float; 30%float]
                50%float = Some 20%float) by (vm_compute; reflexivity).
  split; [exact H |].
  destruct (percentile_is_an_element [10%float; 20%float; 30%float]
              50%float 20%float (or_introl H)) as [[Hnil _] | Hin].
  - discriminate Hnil.
  - exact Hin.
Defined.

Lemma create_never_reuses_an_id_witness :
  exists row d',
    AnomalyModel.create
      (AnomalyModel.mkInput 1 None "manual" Database.low None)
      (Statements.exec_all [Statements.AnomalyDelete 1] db_1)
    = (Database.Ok row, d')
    /\ (1 < Database.id row)%Z
    /\ Database.anomalies (Statements.exec_all [Statements.AnomalyDelete 1] db_1)
       !! 1%Z = None.
Proof.
  assert (Hwf : Statements.wf db_1).
  { intros i a Hi. unfold db_1 in Hi. cbn [Database.anomalies] in Hi.
    apply lookup_singleton_Some in Hi as [<- _]. cbn. lia. }
  destruct (proj1 (create_never_reuses_an_id [Statements.AnomalyDelete 1]
                     db_1
                     (AnomalyModel.mkInput 1 None "manual" Database.low None)
                     1%Z finding_1 Hwf eq_refl) eq_refl)
    as (row & d' & Hrun & Hlt & _).
  exists row, d'. split; [exact Hrun |]. split; [exact Hlt |].
  vm_compute. reflexivity.
Defined.

Lemma text_survives_the_codec_witness :
  Codec.well_formed
    (Codec.ab2str (Codec.str2ab [0xD83D; 0x41]%Z)) = true
  /\ Codec.ab2str (Codec.str2ab (Codec.lit "{}")) = Codec.lit "{}".
Proof.
  split.
  - apply (text_survives_the_codec [0xD83D; 0x41]%Z).
    repeat (apply Forall_cons; split; [unfold Codec.is_code_unit; lia |]).
    constructor.
  - apply (proj2 (proj2 (text_survives_the_codec (Codec.lit "{}")
                           (well_formed_code_units (Codec.lit "{}")
                                                   eq_refl)))).
    reflexivity.
Defined.

Lemma date_range_is_chronological_witness :
  Dates.date_range_selects 1 "2023-12-31" "2024-02-29" 1 "2024-01-15" = true
  /\ Dates.date_range_selects 1 "2023-12-31" "2024-02-29" 1 "2024-03-01"
     = false.
Proof.
  split.
  - apply (date_range_is_chronological 1 1 "2023-12-31" "2024-02-29"
             "2024-01-15"); try reflexivity.
    split; [reflexivity |]. cbv -[Z.lt Z.le]. lia.
  - destruct (Dates.date_range_selects 1 "2023-12-31" "2024-02-29" 1
                "2024-03-01") eqn:Hsel; [| reflexivity].
    apply (date_range_is_chronological 1 1 "2023-12-31" "2024-02-29"
             "2024-03-01") in Hsel; try reflexivity.
    destruct Hsel as (_ & _ & Hend). cbv -[Z.lt Z.le] in Hend. lia.
Defined.

